(** * node_server: chain and consensus engine of a small replicated ledger

    A shallow embedding of [src/node_server.py] (classes [Block] and
    [Blockchain], [consensus], [create_chain_from_dump]) together with the
    properties of the ledger core that can be settled on it.

    Python objects that are mutated in place ([Block] instances) live in a
    store; exceptions are outcomes of a small state-and-exception monad. *)

From Stdlib Require Import ZArith String Ascii List Lia Bool.
From stdpp Require Import base option list strings pretty.

Local Open Scope string_scope.
Local Open Scope list_scope.
Local Open Scope Z_scope.

(** ** hashlib.sha256

    [sha256(data).hexdigest()] of the Python standard library, over the
    bytes of a string (the header strings of this program are ASCII, so
    [str.encode()] is the identity on bytes). FIPS 180-4, section 6.2. *)
Module SHA256.

Definition mask32 : Z := 0xffffffff.
Definition w32 (x : Z) : Z := Z.land x mask32.
Definition rotr (n x : Z) : Z := Z.lor (Z.shiftr x n) (w32 (Z.shiftl x (32 - n))).
Definition xor3 (x y z : Z) : Z := Z.lxor (Z.lxor x y) z.

Definition Ch (x y z : Z) : Z := Z.lxor (Z.land x y) (Z.land (Z.lxor x mask32) z).
Definition Maj (x y z : Z) : Z := xor3 (Z.land x y) (Z.land x z) (Z.land y z).
Definition Sigma0 (x : Z) : Z := xor3 (rotr 2 x) (rotr 13 x) (rotr 22 x).
Definition Sigma1 (x : Z) : Z := xor3 (rotr 6 x) (rotr 11 x) (rotr 25 x).
Definition sigma0 (x : Z) : Z := xor3 (rotr 7 x) (rotr 18 x) (Z.shiftr x 3).
Definition sigma1 (x : Z) : Z := xor3 (rotr 17 x) (rotr 19 x) (Z.shiftr x 10).

(** The round constants are the first 32 bits of the fractional parts of
    the cube roots of the first 64 primes, the initial hash value those of
    the square roots of the first 8 (FIPS 180-4, sections 4.2.2, 5.3.3). *)
Definition is_prime (p : Z) : bool :=
  forallb (fun d => negb (p mod d =? 0))
    (map Z.of_nat (seq 2 (Z.to_nat p - 2))).

Definition primes : list Z :=
  Eval vm_compute in filter (fun p => is_prime p = true) (map Z.of_nat (seq 2 310)).

(** Integer cube root, one bit at a time from bit [n - 1] down. *)
Fixpoint icbrt (n : nat) (x acc : Z) : Z :=
  match n with
  | O => acc
  | S m =>
      let c := Z.lor acc (Z.shiftl 1 (Z.of_nat m)) in
      icbrt m x (if c * c * c <=? x then c else acc)
  end.

Definition K : list Z :=
  Eval vm_compute in map (fun p => w32 (icbrt 40 (Z.shiftl p 96) 0)) primes.

Definition H0 : list Z :=
  Eval vm_compute in map (fun p => w32 (Z.sqrt (Z.shiftl p 64))) (firstn 8 primes).

(** Big-endian bytes of [x], [n] of them. *)
Fixpoint be_bytes (n : nat) (x : Z) : list Z :=
  match n with
  | O => []
  | S m => Z.land (Z.shiftr x (8 * Z.of_nat m)) 0xff :: be_bytes m x
  end.

Definition be_word (bs : list Z) : Z :=
  fold_left (fun acc b => Z.lor (Z.shiftl acc 8) b) bs 0.

(** Padding: the bit 1, zero bits up to 56 mod 64 bytes, the bit length. *)
Definition pad (msg : list Z) : list Z :=
  let len := Z.of_nat (length msg) in
  let zeros := Z.to_nat ((55 - len) mod 64) in
  msg ++ [0x80] ++ repeat 0 zeros ++ be_bytes 8 (8 * len).

Fixpoint words (n : nat) (bs : list Z) : list Z :=
  match n with
  | O => []
  | S m => be_word (firstn 4 bs) :: words m (skipn 4 bs)
  end.

(** One round; [win] is the sliding window W[t..t+15] of the schedule. *)
Definition round (st : list Z * list Z) (k : Z) : list Z * list Z :=
  let '(v, win) := st in
  match v, win with
  | [a; b; c; d; e; f; g; h], w0 :: wrest =>
      let t1 := h + Sigma1 e + Ch e f g + k + w0 in
      let t2 := Sigma0 a + Maj a b c in
      let w16 := w32 (sigma1 (nth 14 win 0) + nth 9 win 0
                      + sigma0 (nth 1 win 0) + w0) in
      ([w32 (t1 + t2); a; b; c; w32 (d + t1); e; f; g], wrest ++ [w16])
  | _, _ => st
  end.

Definition compress (hs : list Z) (block : list Z) : list Z :=
  let v := fst (fold_left round K (hs, words 16 block)) in
  zip_with (fun x y => w32 (x + y)) hs v.

Fixpoint blocks (n : nat) (hs : list Z) (bs : list Z) : list Z :=
  match n with
  | O => hs
  | S m => blocks m (compress hs (firstn 64 bs)) (skipn 64 bs)
  end.

Definition digest (msg : list Z) : list Z :=
  let p := pad msg in
  blocks (Nat.div (length p) 64) H0 p.

Definition hex_digit (d : Z) : ascii :=
  ascii_of_N (Z.to_N (if d <? 10 then 48 + d else 87 + d)).

Fixpoint hex (n : nat) (x : Z) : string :=
  match n with
  | O => EmptyString
  | S m => String (hex_digit (Z.land (Z.shiftr x (4 * Z.of_nat m)) 0xf)) (hex m x)
  end.

Definition bytes_of_string (s : string) : list Z :=
  map (fun c => Z.of_N (N_of_ascii c)) (list_ascii_of_string s).

Definition hexdigest (s : string) : string :=
  fold_right (fun w acc => hex 8 w +:+ acc) EmptyString (digest (bytes_of_string s)).

End SHA256.

(** ** Python values and outcomes *)

(** The exceptions this program can raise. [Exception msg] is the explicit
    [raise Exception(msg)] of [create_chain_from_dump]. *)
Inductive exn : Type :=
  | AttributeError
  | NameError
  | TypeError
  | IndexError
  | KeyError
  | Exception (msg : string).

(** How a call ends: it returns, it raises, the fuel given to an unbounded
    loop ran out, or the model met a location that holds no object (no
    Python run does). *)
Inductive outcome (A : Type) : Type :=
  | Return (a : A)
  | Raise (e : exn)
  | OutOfFuel
  | Dangling.
Arguments Return {A} a.
Arguments Raise {A} e.
Arguments OutOfFuel {A}.
Arguments Dangling {A}.

(** State and exceptions: the state survives a raise, as a mutation made
    before the exception does in Python. *)
Definition M (S A : Type) : Type := S -> outcome A * S.

Definition ret {S A} (a : A) : M S A := fun s => (Return a, s).
Definition raise {S A} (e : exn) : M S A := fun s => (Raise e, s).
Definition bind {S A B} (m : M S A) (k : A -> M S B) : M S B :=
  fun s =>
    match m s with
    | (Return a, s') => k a s'
    | (Raise e, s') => (Raise e, s')
    | (OutOfFuel, s') => (OutOfFuel, s')
    | (Dangling, s') => (Dangling, s')
    end.
Definition get {S} : M S S := fun s => (Return s, s).

Notation "x <- m ;; k" := (bind m (fun x => k))
  (at level 100, m at next level, right associativity).
Notation "m ;;; k" := (bind m (fun _ => k))
  (at level 100, right associativity).

(** A [datetime] is kept as its [str()], a transaction as its [repr()]:
    the program only ever prints them into the block header. *)
Definition datetime : Type := string.
Definition Transaction : Type := string.

(** [str(n)] of an int, [str(l)] of a list, [s * n] and [s[:n]] of a str. *)
Definition str_int (n : Z) : string := pretty n.
Definition str_list (l : list Transaction) : string :=
  "[" +:+ String.concat ", " l +:+ "]".
Definition str_mul (s : string) (n : Z) : string :=
  String.concat EmptyString (repeat s (Z.to_nat n)).
Definition str_slice_to (s : string) (n : Z) : string :=
  let len := Z.of_nat (String.length s) in
  let stop := if n <? 0 then Z.max 0 (len + n) else Z.min n len in
  substring 0 (Z.to_nat stop) s.
Definition startswith (s p : string) : bool := String.prefix p s.

(** ** class Block *)

(** The instance attributes. [hash] is the one attribute the program
    deletes ([delattr], line 146), hence optional. *)
Record Block : Type := mkBlock {
  index : Z;
  time_stamp : datetime;
  transactions : list Transaction;
  previous_hash : string;
  nonce : Z;
  hash : option string
}.

Definition set_nonce (n : Z) (b : Block) : Block :=
  mkBlock (index b) (time_stamp b) (transactions b) (previous_hash b) n (hash b).
Definition set_hash (h : option string) (b : Block) : Block :=
  mkBlock (index b) (time_stamp b) (transactions b) (previous_hash b) (nonce b) h.

(** [Block] instances are shared and mutated in place, so they live in a
    store and are passed around as locations. *)
Abbreviation loc := nat (only parsing).
Abbreviation store := (list Block) (only parsing).

Definition read (l : loc) : M store Block :=
  fun s => match s !! l with
           | Some b => (Return b, s)
           | None => (Dangling, s)
           end.
Definition write (l : loc) (b : Block) : M store unit :=
  fun s => (Return tt, <[l := b]> s).
Definition alloc (b : Block) : M store loc :=
  fun s => (Return (length s), s ++ [b]).

(** [block.hash], [delattr(block, "hash")] and [block.hash = h]. *)
Definition getattr_hash (l : loc) : M store string :=
  b <- read l ;;
  match hash b with
  | Some h => ret h
  | None => raise AttributeError
  end.
Definition delattr_hash (l : loc) : M store unit :=
  b <- read l ;;
  match hash b with
  | Some _ => write l (set_hash None b)
  | None => raise AttributeError
  end.
Definition setattr_hash (l : loc) (h : string) : M store unit :=
  b <- read l ;; write l (set_hash (Some h) b).

(** One entry of a chain as JSON: the dict of a block, with the keys
    [/chain] serves and [create_chain_from_dump] reads. *)
Record BlockData : Type := mkBlockData {
  d_index : Z;
  d_transactions : list Transaction;
  d_timestamp : string;
  d_previous_hash : string;
  d_nonce : Z;
  d_hash : string
}.
Record Response : Type := mkResponse {
  r_length : Z;
  r_chain : list BlockData
}.
(** Names the module looks up at run time without defining them: the
    [generate_hash] attribute of a block (line 26; class [Block] defines
    [compute_hash] only), the global [difficulty] (line 102; the class
    attribute is [Blockchain.difficulty]) and the global [requests]
    (line 169; never imported). [None] is an unbound name. A bound
    [requests] is given by what [requests.get(url).json()] holds. *)
Record Env : Type := mkEnv {
  Block_generate_hash : option (Block -> string);
  global_difficulty : option Z;
  global_requests : option (string -> Response)
}.

(** The module exactly as written binds none of the three. *)
Definition node_server_env : Env := mkEnv None None None.

(** Lines 28-34. *)
Definition compute_hash (self : Block) : string :=
  let block_header :=
    time_stamp self +:+ str_list (transactions self)
      +:+ previous_hash self +:+ str_int (nonce self) in
  SHA256.hexdigest block_header.

(** Lines 21-25: the attributes set before the hash assignment. The
    [time_stamp] argument is overwritten by the clock reading [now]. *)
Definition Block_fields (now : datetime) (index : Z) (transactions : list Transaction)
    (time_stamp : datetime) (previous_hash : string) : Block :=
  mkBlock index now transactions previous_hash 0 None.

(** [Block(index, transactions, time_stamp, previous_hash)], lines 13-26:
    line 26 looks up [self.generate_hash] and stores its result. *)
Definition Block_new (env : Env) (now : datetime) (index : Z)
    (transactions : list Transaction) (time_stamp : datetime)
    (previous_hash : string) : M store loc :=
  let self := Block_fields now index transactions time_stamp previous_hash in
  match Block_generate_hash env with
  | None => raise AttributeError
  | Some generate_hash => alloc (set_hash (Some (generate_hash self)) self)
  end.

(** A call of [Block] with keyword arguments: a keyword that names no
    parameter, or a parameter left without argument, is a [TypeError]
    raised before the body runs. *)
Inductive arg : Type :=
  | AInt (n : Z)
  | ATxs (l : list Transaction)
  | AStr (s : string).

Definition Block_params : list string :=
  ["index"; "transactions"; "time_stamp"; "previous_hash"].

Fixpoint kwarg (name : string) (kwargs : list (string * arg)) : option arg :=
  match kwargs with
  | [] => None
  | (k, v) :: rest => if String.eqb k name then Some v else kwarg name rest
  end.

Definition Block_new_kw (env : Env) (now : datetime)
    (kwargs : list (string * arg)) : M store loc :=
  if forallb (fun kv => existsb (String.eqb (fst kv)) Block_params) kwargs then
    match kwarg "index" kwargs, kwarg "transactions" kwargs,
          kwarg "time_stamp" kwargs, kwarg "previous_hash" kwargs with
    | Some (AInt i), Some (ATxs t), Some (AStr ts), Some (AStr p) =>
        Block_new env now i t ts p
    | _, _, _, _ => raise TypeError
    end
  else raise TypeError.

(** ** class Blockchain *)

(** Line 48: the class attribute [Blockchain.difficulty]. *)
Definition Blockchain_difficulty : Z := 2.

(** The instance attributes; [previous_block] is set by the last line of
    [__init__] only. *)
Record Blockchain : Type := mkBlockchain {
  chain : list loc;
  unconfirmed_transactions : list Transaction;
  previous_block : option string
}.

(** A method runs on its receiver [self] and on the store of blocks. *)
Record World : Type := mkWorld {
  self : Blockchain;
  blocks : store
}.

Definition on_store {A} (m : M store A) : M World A :=
  fun w => let (o, s) := m (blocks w) in (o, mkWorld (self w) s).
Definition get_self : M World Blockchain := fun w => (Return (self w), w).
Definition put_self (bc : Blockchain) : M World unit :=
  fun w => (Return tt, mkWorld bc (blocks w)).

(** [self.chain.append(block)]. *)
Definition chain_append (block : loc) : M World unit :=
  bc <- get_self ;;
  put_self (mkBlockchain (chain bc ++ [block]) (unconfirmed_transactions bc)
              (previous_block bc)).

(** Lines 66-68: [self.chain[-1]]. *)
Definition last_block : M World loc :=
  bc <- get_self ;;
  match last (chain bc) with
  | Some l => ret l
  | None => raise IndexError
  end.

(** Lines 91-96. [and] does not evaluate its right operand when the left
    one is false. *)
Definition is_valid (block : Block) (block_hash : string) : bool :=
  startswith block_hash (str_mul "0" Blockchain_difficulty)
  && String.eqb block_hash (compute_hash block).

(** Lines 70-89. Line 87 rebinds the local name [proof] and nothing
    else: the block's [hash] attribute is not assigned. *)
Definition add_block (block : loc) (proof : string) : M World bool :=
  tip <- last_block ;;
  previous_block_hash <- on_store (getattr_hash tip) ;;
  b <- on_store (read block) ;;
  if negb (String.eqb previous_block_hash (previous_hash b)) then ret false
  else if negb (is_valid b proof) then ret false
  else
    let proof := previous_hash b in
    chain_append block ;;;
    ret true.

(** Lines 56-64. Both readings of the clock are consumed: the argument of
    line 62 and the one taken inside [Block.__init__]. *)
Definition genesis_block (env : Env) (now_arg now : datetime) : M World unit :=
  genesis_block <- on_store (Block_new env now 0 [] now_arg "0") ;;
  on_store (b <- read genesis_block ;;
            write genesis_block (set_hash (Some (compute_hash b)) b)) ;;;
  chain_append genesis_block.

(** Runs a method body on a receiver and hands the receiver back. *)
Definition with_self {A} (bc : Blockchain) (m : M World A) : M store (A * Blockchain) :=
  fun s =>
    match m (mkWorld bc s) with
    | (Return a, w) => (Return (a, self w), blocks w)
    | (Raise e, w) => (Raise e, blocks w)
    | (OutOfFuel, w) => (OutOfFuel, blocks w)
    | (Dangling, w) => (Dangling, blocks w)
    end.

(** Lines 50-54: [Blockchain()], starting from a fresh object. *)
Definition Blockchain_init (env : Env) (now_arg now : datetime) : M store Blockchain :=
  r <- with_self (mkBlockchain [] [] None)
         (genesis_block env now_arg now ;;;
          tip <- last_block ;;
          h <- on_store (getattr_hash tip) ;;
          bc <- get_self ;;
          put_self (mkBlockchain (chain bc) (unconfirmed_transactions bc) (Some h))) ;;
  ret (snd r).

(** Lines 98-107. The loop condition reads the bare name [difficulty] on
    every test; [fuel] bounds the number of iterations of the [while]. *)
Definition pow_unsolved (d : Z) (proof : string) : bool :=
  negb (String.eqb (str_slice_to proof d) (str_mul "0" Blockchain_difficulty)).

Fixpoint pow_loop (env : Env) (fuel : nat) (block : loc) (proof : string)
    : M store string :=
  match global_difficulty env with
  | None => raise NameError
  | Some difficulty =>
      if pow_unsolved difficulty proof then
        match fuel with
        | O => fun s => (OutOfFuel, s)
        | S fuel' =>
            b <- read block ;;
            write block (set_nonce (nonce b + 1) b) ;;;
            b' <- read block ;;
            pow_loop env fuel' block (compute_hash b')
        end
      else ret proof
  end.

Definition proof_of_work (env : Env) (fuel : nat) (block : loc) : M store string :=
  b <- read block ;;
  proof <- pow_loop env fuel block (compute_hash b) ;;
  b' <- read block ;;
  write block (set_nonce 0 b') ;;;
  ret proof.

(** Lines 109-110. *)
Definition add_new_transaction (transaction : Transaction) : M World unit :=
  bc <- get_self ;;
  put_self (mkBlockchain (chain bc) (unconfirmed_transactions bc ++ [transaction])
              (previous_block bc)).

(** What [interface] returns: [False] or the new block's index. *)
Inductive mined : Type :=
  | PyFalse
  | PyInt (n : Z).

(** Lines 127-132: what [interface] does with the candidate block once it
    exists. The result of [add_block] is dropped. *)
Definition interface_mine (env : Env) (fuel : nat) (new_block : loc) : M World mined :=
  proof <- on_store (proof_of_work env fuel new_block) ;;
  _added <- add_block new_block proof ;;
  bc <- get_self ;;
  put_self (mkBlockchain (chain bc) [] (previous_block bc)) ;;;
  b <- on_store (read new_block) ;;
  ret (PyInt (index b)).

(** Lines 112-132. The candidate is built by a keyword call whose third
    keyword is [timestamp]. *)
Definition interface (env : Env) (fuel : nat) (now_arg now : datetime) : M World mined :=
  bc <- get_self ;;
  match unconfirmed_transactions bc with
  | [] => ret PyFalse
  | _ :: _ =>
      last_block <- last_block ;;
      tip <- on_store (read last_block) ;;
      tip_hash <- on_store (getattr_hash last_block) ;;
      new_block <- on_store (Block_new_kw env now
                     [ ("index", AInt (index tip + 1));
                       ("transactions", ATxs (unconfirmed_transactions bc));
                       ("timestamp", AStr now_arg);
                       ("previous_hash", AStr tip_hash) ]) ;;
      interface_mine env fuel new_block
  end.

(** An element of the chain handed to [check_chain_validity]: a [Block]
    instance, or a dict decoded from a peer's JSON. *)
Inductive pyobj : Type :=
  | PBlock (l : loc)
  | PDict (d : BlockData).

(** [obj.hash], [delattr(obj, "hash")], [obj.hash = h], and the fields
    read by [is_valid] and the linkage test. A dict has no attributes. *)
Definition obj_getattr_hash (o : pyobj) : M store string :=
  match o with
  | PBlock l => getattr_hash l
  | PDict _ => raise AttributeError
  end.
Definition obj_delattr_hash (o : pyobj) : M store unit :=
  match o with
  | PBlock l => delattr_hash l
  | PDict _ => raise AttributeError
  end.
Definition obj_setattr_hash (o : pyobj) (h : string) : M store unit :=
  match o with
  | PBlock l => setattr_hash l h
  | PDict _ => raise AttributeError
  end.
Definition obj_read (o : pyobj) : M store Block :=
  match o with
  | PBlock l => read l
  | PDict _ => raise AttributeError
  end.

(** Lines 134-155. [previous_hash] is the loop's running variable,
    ["0"] at the start. *)
Fixpoint check_chain_loop (chain : list pyobj) (previous_hash_ : string)
    : M store bool :=
  match chain with
  | [] => ret true
  | block :: rest =>
      block_hash <- obj_getattr_hash block ;;
      obj_delattr_hash block ;;;
      claimed <- obj_getattr_hash block ;;
      b <- obj_read block ;;
      if negb (is_valid b claimed)
         || negb (String.eqb previous_hash_ (previous_hash b))
      then ret false
      else
        obj_setattr_hash block block_hash ;;;
        check_chain_loop rest block_hash
  end.

Definition check_chain_validity (chain : list pyobj) : M store bool :=
  check_chain_loop chain "0".

(** ** Module level: the node's globals, consensus, chain dumps *)

(** The global [blockchain] is a [Blockchain] until [consensus] rebinds
    it to the list of dicts it selected (line 178). *)
Inductive gval : Type :=
  | GLedger (bc : Blockchain)
  | GChain (c : list BlockData).

Record Node : Type := mkNode {
  blockchain : gval;
  participants : list string;
  node_blocks : store
}.

Definition on_node_store {A} (m : M store A) : M Node A :=
  fun n => let (o, s) := m (node_blocks n) in
           (o, mkNode (blockchain n) (participants n) s).
Definition set_blockchain (g : gval) : M Node unit :=
  fun n => (Return tt, mkNode g (participants n) (node_blocks n)).

(** Lines 168-175, over the participants in iteration order. *)
Fixpoint consensus_loop (env : Env) (nodes : list string)
    (longest_chain : option (list BlockData)) (current_len : Z)
    : M store (option (list BlockData) * Z) :=
  match nodes with
  | [] => ret (longest_chain, current_len)
  | node :: rest =>
      match global_requests env with
      | None => raise NameError
      | Some requests_get =>
          let response := requests_get (node +:+ "/chain") in
          let length := r_length response in
          let chain := r_chain response in
          ok <- (if current_len <? length
                 then check_chain_validity (map PDict chain)
                 else ret false) ;;
          if ok : bool then consensus_loop env rest (Some chain) length
          else consensus_loop env rest longest_chain current_len
      end
  end.

(** Lines 158-181. *)
Definition consensus (env : Env) : M Node bool :=
  n <- get ;;
  match blockchain n with
  | GChain _ => raise AttributeError
  | GLedger bc =>
      let current_len := Z.of_nat (length (chain bc)) in
      r <- on_node_store (consensus_loop env (participants n) None current_len) ;;
      match fst r with
      | Some (d :: c) => set_blockchain (GChain (d :: c)) ;;; ret true
      | Some [] | None => ret false
      end
  end.

(** Lines 285-296; [clock idx] is the clock reading taken by the
    [Block] built in iteration [idx]. *)
Fixpoint dump_loop (env : Env) (clock : nat -> datetime) (idx : nat)
    (chain_dump : list BlockData) : M World unit :=
  match chain_dump with
  | [] => ret tt
  | block_data :: rest =>
      block <- on_store (Block_new env (clock idx) (d_index block_data)
                 (d_transactions block_data) (d_timestamp block_data)
                 (d_previous_hash block_data)) ;;
      let proof := d_hash block_data in
      (if Nat.ltb 0 idx then
         added <- add_block block proof ;;
         if negb added then raise (Exception "The chain dump is tampered!!")
         else ret tt
       else chain_append block) ;;;
      dump_loop env clock (S idx) rest
  end.

(** Lines 283-297. *)
Definition create_chain_from_dump (env : Env) (now_arg now : datetime)
    (clock : nat -> datetime) (chain_dump : list BlockData) : M store Blockchain :=
  blockchain <- Blockchain_init env now_arg now ;;
  r <- with_self blockchain (dump_loop env clock 0 chain_dump) ;;
  ret (snd r).

(** ** Concrete data

    A genesis block, two candidate blocks on top of it, and an
    environment that binds the three unbound names the way the rest of
    the module uses them. *)

Definition ex_genesis_hash : string :=
  "87fdc7d6c8eba4968a49112595b5a85d83074312e2ce5c48140f803cad36efde".
Definition ex_genesis : Block :=
  mkBlock 0 "2024-01-01 00:00:00.000000" [] "0" 0 (Some ex_genesis_hash).
Definition ex_tx : Transaction := "{'author': 'a', 'content': 'hello'}".

(** Its digest at nonce 0 already starts with two zeros. *)
Definition ex_solved_hash : string :=
  "0016ced8cabbddaa8c5cf9c7b18cd1d5a9ce50aebfdf34609b67af1719934d1c".
Definition ex_solved (h : option string) : Block :=
  mkBlock 1 "2024-01-01 00:00:01.001245" [ex_tx] ex_genesis_hash 0 h.

(** Its first digest with two leading zeros is the one at nonce 2. *)
Definition ex_candidate_hash0 : string :=
  "14e1c4536f87968570f6e5e0177fc8eb668cb8c28c086cb20d86ec3aad620a8c".
Definition ex_candidate_hash2 : string :=
  "004c16f8dfbd1962d3ff746ee488850f12cc42797bc3daab744b0425cd17082f".
Definition ex_candidate : Block :=
  mkBlock 1 "2024-01-01 00:00:01.000243" [ex_tx] ex_genesis_hash 0
    (Some ex_candidate_hash0).

Definition ex_peer_chain : list BlockData :=
  [ mkBlockData 0 [] "2024-01-01 00:00:00.000000" "0" 0 ex_genesis_hash;
    mkBlockData 1 [ex_tx] "2024-01-01 00:00:01.001245" ex_genesis_hash 0
      ex_solved_hash ].
Definition ex_requests (url : string) : Response := mkResponse 2 ex_peer_chain.

Definition ex_env : Env :=
  mkEnv (Some compute_hash) (Some Blockchain_difficulty) (Some ex_requests).

Definition ex_ledger : Blockchain := mkBlockchain [0%nat] [ex_tx] (Some ex_genesis_hash).
Definition ex_node : Node :=
  mkNode (GLedger ex_ledger) ["http://127.0.0.1:8001"] [ex_genesis].


(** ** Predicates used in the statements *)

(** Every block of [chain] is a block of the store that passes the test of
    lines 148-149 on its stored hash: [is_valid] at the class difficulty,
    and [previous_hash] equal to the stored hash of the block before it,
    ["0"] for the first. No block is treated apart. *)
Fixpoint chain_passes (s : store) (previous_hash_ : string) (chain : list pyobj)
    : Prop :=
  match chain with
  | [] => True
  | o :: rest =>
      exists l b h,
        o = PBlock l /\ s !! l = Some b /\ hash b = Some h
        /\ is_valid b h = true /\ previous_hash b = previous_hash_
        /\ chain_passes s h rest
  end.

(** [m] only ever moves the state along the relation [R]. *)
Definition preserves {S A : Type} (R : S -> S -> Prop) (m : M S A) : Prop :=
  forall s o s', m s = (o, s') -> R s s'.

Definition chain_extends (w w' : World) : Prop :=
  chain (self w) `prefix_of` chain (self w').

(** ** Callers of the ledger in the request handlers *)

(** Runs a method of the ledger the global [blockchain] is bound to; the
    object is mutated in place, so the global keeps naming it. *)
Definition on_ledger {A} (bc : Blockchain) (m : M World A) : M Node A :=
  fun n =>
    let (o, w) := m (mkWorld bc (node_blocks n)) in
    (o, mkNode (GLedger (self w)) (participants n) (blocks w)).

(** The body of a request to [/add_block]: a JSON object in which each
    key the handler subscripts is present or not. *)
Record BlockBody : Type := mkBlockBody {
  body_index : option Z;
  body_transactions : option (list Transaction);
  body_timestamp : option string;
  body_previous_hash : option string;
  body_hash : option string
}.

(** [d[key]]: a missing key raises [KeyError]. *)
Definition subscript {S A} (v : option A) : M S A :=
  match v with
  | Some a => ret a
  | None => raise KeyError
  end.

(** Lines 304-317, on the decoded request body [block_data]; the result is
    the pair of the response text and the status code. The four
    subscripts of lines 306-309 are evaluated, left to right, before
    [Block] is called, the one of line 311 after it. A list has no
    [add_block] attribute. *)
Definition verify_and_add_block (env : Env) (now : datetime)
    (block_data : BlockBody) : M Node (string * Z) :=
  index <- subscript (body_index block_data) ;;
  transactions <- subscript (body_transactions block_data) ;;
  timestamp <- subscript (body_timestamp block_data) ;;
  previous_hash <- subscript (body_previous_hash block_data) ;;
  block <- on_node_store (Block_new env now index transactions timestamp
             previous_hash) ;;
  proof <- subscript (body_hash block_data) ;;
  n <- get ;;
  match blockchain n with
  | GChain _ => raise AttributeError
  | GLedger bc =>
      added <- on_ledger bc (add_block block proof) ;;
      if negb added then ret ("The block was discarded by the node", 400)
      else ret ("Block added to the chain", 201)
  end.

(** Lines 194-206, on the decoded request body [tx_data], a dict kept as
    its items in insertion order. The handler looks at the values of the
    dict only through their truth value, stores a clock reading among
    them, and hands the dict to the pool, where the model keeps a
    transaction as its [repr()]: the type of the values, their truth
    value, the value of a clock reading and the [repr()] of the dict are
    parameters. *)
Section NewTransaction.
Context {V : Type} (truthy : V -> bool) (of_datetime : datetime -> V)
  (repr : list (string * V) -> Transaction).

(** [d.get(key)]: [None] stands for Python's [None], which is falsy. *)
Fixpoint dict_get (d : list (string * V)) (key : string) : option V :=
  match d with
  | [] => None
  | (k, v) :: rest => if String.eqb k key then Some v else dict_get rest key
  end.

(** [d[key] = v]: an existing key keeps its place, a new one goes last. *)
Fixpoint dict_set (d : list (string * V)) (key : string) (v : V)
    : list (string * V) :=
  match d with
  | [] => [(key, v)]
  | (k, x) :: rest =>
      if String.eqb k key then (k, v) :: rest else (k, x) :: dict_set rest key v
  end.

(** Lines 198-200: does the loop over the required fields return early? *)
Fixpoint field_missing (tx_data : list (string * V))
    (required_fields : list string) : bool :=
  match required_fields with
  | [] => false
  | field :: rest =>
      match dict_get tx_data field with
      | None => true
      | Some v => if truthy v then field_missing tx_data rest else true
      end
  end.

Definition new_transaction (now : datetime) (tx_data : list (string * V))
    : M Node (string * Z) :=
  let required_fields := ["author"; "content"] in
  if field_missing tx_data required_fields
  then ret ("Invalid transaction data", 404)
  else
    let tx_data := dict_set tx_data "timestamp" (of_datetime now) in
    n <- get ;;
    match blockchain n with
    | GChain _ => raise AttributeError
    | GLedger bc =>
        on_ledger bc (add_new_transaction (repr tx_data)) ;;;
        ret ("Success", 201)
    end.

End NewTransaction.

(** ** Further predicates and helpers of the statements *)

Definition set_index (i : Z) (b : Block) : Block :=
  mkBlock i (time_stamp b) (transactions b) (previous_hash b) (nonce b) (hash b).

Definition is_hex_digit (c : ascii) : bool :=
  existsb (Ascii.eqb c) (list_ascii_of_string "0123456789abcdef").

Fixpoint all_chars (p : ascii -> bool) (s : string) : bool :=
  match s with
  | EmptyString => true
  | String c rest => p c && all_chars p rest
  end.

(** Two dump entries that differ at most in [timestamp] and [nonce]. *)
Definition same_content (d d' : BlockData) : Prop :=
  d_index d = d_index d' /\ d_transactions d = d_transactions d'
  /\ d_previous_hash d = d_previous_hash d' /\ d_hash d = d_hash d'.

(** Calls of [add_new_transaction], one per element, in order. *)
Fixpoint add_new_transactions (txs : list Transaction) : M World unit :=
  match txs with
  | [] => ret tt
  | t :: rest => add_new_transaction t ;;; add_new_transactions rest
  end.




(** A chain of two mined blocks: a genesis block and a block on top of it,
    each with its digest as stored hash, each digest with two leading
    zeros. *)
Definition ex_mined_genesis_hash : string :=
  "004ea1dfd5ba368474709e88b9064df508768b85f0515ae243e66fd503cabef0".
Definition ex_mined_genesis : Block :=
  mkBlock 0 "2024-01-01 00:00:00.000109" [] "0" 0 (Some ex_mined_genesis_hash).
Definition ex_mined_block_hash : string :=
  "00840b7798d86e088a0c113bde28f39a0979d99dca6286d28bfa166ccf7ed22c".
Definition ex_mined_block : Block :=
  mkBlock 1 "2024-01-01 00:00:01.000050" [ex_tx] ex_mined_genesis_hash 0
    (Some ex_mined_block_hash).

(** * Properties *)

Example sha256_empty :
  SHA256.hexdigest EmptyString = "e3b0c44298fc1c149afbf4c8996fb92427ae41e4649b934ca495991b7852b855".
Proof. vm_compute. reflexivity. Qed.

Example sha256_abc :
  SHA256.hexdigest "abc" = "ba7816bf8f01cfea414140de5dae2223b00361a396177a9cb410ff61f20015ad".
Proof. vm_compute. reflexivity. Qed.

Example sha256_two_blocks :
  SHA256.hexdigest "aaaaaaaaaaaaaaaaaaaaaaaaaaaaaaaaaaaaaaaaaaaaaaaaaaaaaaaaaaaaaaaaaaaaaa"
  = "6bd5e5034855a11241f0dee8fc72850ffd9955b28347a86428b5fa19119f6ad0".
Proof. vm_compute. reflexivity. Qed.

Example ex_genesis_digest : compute_hash ex_genesis = ex_genesis_hash.
Proof. vm_compute. reflexivity. Qed.

Example ex_solved_digest : compute_hash (ex_solved None) = ex_solved_hash.
Proof. vm_compute. reflexivity. Qed.

Example ex_candidate_digests :
  compute_hash ex_candidate = ex_candidate_hash0
  /\ compute_hash (set_nonce 2 ex_candidate) = ex_candidate_hash2.
Proof. split; vm_compute; reflexivity. Qed.

(** ** Strings *)

Lemma startswith_app (s p : string) :
  startswith s p = true <-> exists rest, s = p +:+ rest.
Proof.
  unfold startswith. revert s.
  induction p as [|c p IH]; intros s.
  - split; [intros _; exists s; reflexivity | intros _; destruct s; reflexivity].
  - destruct s as [|c' s]; simpl.
    + split; [discriminate | intros [rest Hr]; discriminate].
    + destruct (Ascii.ascii_dec c c') as [->|Hne].
      * rewrite IH. split; intros [rest Hr]; exists rest.
        -- rewrite Hr. reflexivity.
        -- change (String c' s = String c' (p +:+ rest)) in Hr. congruence.
      * split; [discriminate | intros [rest Hr]].
        change (String c' s = String c (p +:+ rest)) in Hr. congruence.
Qed.

Lemma zeros_difficulty : str_mul "0" Blockchain_difficulty = "00".
Proof. reflexivity. Qed.

(** ** The store *)

Arguments compute_hash : simpl never.

Lemma set_nonce_same (b : Block) : set_nonce (nonce b) b = b.
Proof. destruct b; reflexivity. Qed.

Lemma set_hash_same (b : Block) : set_hash (hash b) b = b.
Proof. destruct b; reflexivity. Qed.

Lemma compute_hash_set_hash (h : option string) (b : Block) :
  compute_hash (set_hash h b) = compute_hash b.
Proof. reflexivity. Qed.

Lemma read_some (s : store) (l : loc) (b : Block) :
  s !! l = Some b -> read l s = (Return b, s).
Proof. intros H. unfold read. rewrite H. reflexivity. Qed.

Lemma getattr_hash_some (s : store) (l : loc) (b : Block) (h : string) :
  s !! l = Some b -> hash b = Some h -> getattr_hash l s = (Return h, s).
Proof.
  intros Hl Hh. unfold getattr_hash, bind. rewrite (read_some _ _ _ Hl), Hh.
  reflexivity.
Qed.

Lemma getattr_hash_none (s : store) (l : loc) (b : Block) :
  s !! l = Some b -> hash b = None -> getattr_hash l s = (Raise AttributeError, s).
Proof.
  intros Hl Hh. unfold getattr_hash, bind. rewrite (read_some _ _ _ Hl), Hh.
  reflexivity.
Qed.

Lemma delattr_hash_some (s : store) (l : loc) (b : Block) (h : string) :
  s !! l = Some b -> hash b = Some h ->
  delattr_hash l s = (Return tt, <[l := set_hash None b]> s).
Proof.
  intros Hl Hh. unfold delattr_hash, bind. rewrite (read_some _ _ _ Hl), Hh.
  reflexivity.
Qed.

Lemma lookup_written (s : store) (l : loc) (b b' : Block) :
  s !! l = Some b -> <[l := b']> s !! l = Some b'.
Proof. intros H. apply list_lookup_insert_eq. eapply lookup_lt_Some, H. Qed.

(** ** check_chain_validity *)

(** The walk stops at its first element whatever that element is: a
    block loses its [hash] and the read that follows fails; a dict has no
    [hash] attribute to begin with. *)
Lemma check_chain_loop_block (s : store) (l : loc) (b : Block)
    (rest : list pyobj) (prev : string) :
  s !! l = Some b ->
  check_chain_loop (PBlock l :: rest) prev s
  = (Raise AttributeError, <[l := set_hash None b]> s).
Proof.
  intros Hl. simpl. unfold bind at 1.
  destruct (hash b) as [h|] eqn:Hh.
  - rewrite (getattr_hash_some _ _ _ _ Hl Hh).
    unfold bind at 1. rewrite (delattr_hash_some _ _ _ _ Hl Hh).
    unfold bind at 1.
    rewrite (getattr_hash_none _ l (set_hash None b)); [reflexivity | | reflexivity].
    eapply lookup_written, Hl.
  - rewrite (getattr_hash_none _ _ _ Hl Hh).
    replace (set_hash None b) with b by (rewrite <- Hh; symmetry; apply set_hash_same).
    rewrite list_insert_id by exact Hl. reflexivity.
Qed.

Lemma check_chain_loop_dict (s : store) (d : BlockData) (rest : list pyobj)
    (prev : string) :
  check_chain_loop (PDict d :: rest) prev s = (Raise AttributeError, s).
Proof. reflexivity. Qed.

Lemma check_chain_loop_true (chain : list pyobj) (prev : string) (s s' : store) :
  check_chain_loop chain prev s = (Return true, s') -> chain = [] /\ s' = s.
Proof.
  destruct chain as [|[l|d] rest]; intros H.
  - injection H as <-. split; reflexivity.
  - exfalso. destruct (s !! l) as [b|] eqn:Hl.
    + rewrite (check_chain_loop_block s l b rest prev Hl) in H. discriminate.
    + simpl in H. unfold bind at 1 in H.
      unfold getattr_hash, bind, read in H. rewrite Hl in H. discriminate.
  - discriminate.
Qed.

(** C9. For every chain whose first element is a block of the store, the
    full-chain validity check deletes that block's [hash] attribute and
    then reads it: the check raises [AttributeError] instead of returning
    a boolean, and the block is left without its hash (nothing restores
    it); the rest of the store is as before. A first block that has no
    [hash] left fails one line earlier, to the same effect. *)
Theorem check_chain_validity_raises (s : store) (l : loc) (b : Block)
    (rest : list pyobj) :
  s !! l = Some b ->
  check_chain_validity (PBlock l :: rest) s
  = (Raise AttributeError, <[l := set_hash None b]> s)
  /\ (<[l := set_hash None b]> s) !! l = Some (set_hash None b)
  /\ hash (set_hash None b) = None
  /\ forall l', l' <> l -> (<[l := set_hash None b]> s) !! l' = s !! l'.
Proof.
  intros Hl. split; [apply check_chain_loop_block, Hl|].
  split; [eapply lookup_written, Hl|].
  split; [reflexivity|].
  intros l' Hne. apply list_lookup_insert_ne. congruence.
Qed.

Lemma check_chain_validity_raises_witness :
  [ex_genesis; ex_solved (Some ex_solved_hash)] !! 0%nat = Some ex_genesis
  /\ check_chain_validity [PBlock 0; PBlock 1]
       [ex_genesis; ex_solved (Some ex_solved_hash)]
     = (Raise AttributeError,
        [set_hash None ex_genesis; ex_solved (Some ex_solved_hash)]).
Proof.
  split; [reflexivity|].
  apply (check_chain_validity_raises
           [ex_genesis; ex_solved (Some ex_solved_hash)] 0%nat ex_genesis
           [PBlock 1]).
  reflexivity.
Defined.

(** ** is_valid *)

(** C5. Single-block validation returns true if and only if the claimed
    hash equals the block's recomputed digest and begins with
    [Blockchain.difficulty] zero digits; both conjuncts are required. *)
Theorem is_valid_iff (block : Block) (block_hash : string) :
  is_valid block block_hash = true <->
  block_hash = compute_hash block
  /\ exists rest, block_hash = str_mul "0" Blockchain_difficulty +:+ rest.
Proof.
  unfold is_valid. rewrite andb_true_iff, startswith_app, String.eqb_eq. tauto.
Qed.

(** ** proof_of_work *)

Lemma set_nonce_set_nonce (n m : Z) (b : Block) :
  set_nonce n (set_nonce m b) = set_nonce n b.
Proof. reflexivity. Qed.

(** The search, once the bare name [difficulty] resolves: it stops at the
    first nonce at or above the block's own whose digest ends the loop,
    and the block then carries that nonce. *)
Lemma pow_loop_finds (env : Env) (d : Z) (l : loc) :
  global_difficulty env = Some d ->
  forall (k fuel : nat) (b : Block) (s : store),
    s !! l = Some b ->
    (forall j : nat, (j < k)%nat ->
       pow_unsolved d (compute_hash (set_nonce (nonce b + Z.of_nat j) b)) = true) ->
    pow_unsolved d (compute_hash (set_nonce (nonce b + Z.of_nat k) b)) = false ->
    (k <= fuel)%nat ->
    pow_loop env fuel l (compute_hash b) s
    = (Return (compute_hash (set_nonce (nonce b + Z.of_nat k) b)),
       <[l := set_nonce (nonce b + Z.of_nat k) b]> s).
Proof.
  intros Hd. induction k as [|k IH]; intros fuel b s Hl Hun Hsol Hfuel.
  - change (Z.of_nat 0) with 0 in *. rewrite Z.add_0_r, set_nonce_same in *.
    rewrite (list_insert_id _ _ _ Hl).
    destruct fuel; simpl; rewrite Hd, Hsol; reflexivity.
  - destruct fuel as [|fuel]; [lia|].
    assert (H0 : pow_unsolved d (compute_hash b) = true).
    { specialize (Hun 0%nat ltac:(lia)).
      change (Z.of_nat 0) with 0 in Hun.
      rewrite Z.add_0_r, set_nonce_same in Hun. exact Hun. }
    simpl. rewrite Hd, H0.
    unfold bind at 1. rewrite (read_some _ _ _ Hl).
    unfold bind at 1. unfold write at 1.
    unfold bind at 1.
    rewrite (read_some _ l (set_nonce (nonce b + 1) b))
      by (eapply lookup_written, Hl).
    rewrite (IH fuel (set_nonce (nonce b + 1) b)).
    + rewrite set_nonce_set_nonce, list_insert_insert_eq. simpl nonce.
      replace (nonce b + 1 + Z.of_nat k) with (nonce b + Z.of_nat (S k)) by lia.
      reflexivity.
    + eapply lookup_written, Hl.
    + intros j Hj. rewrite set_nonce_set_nonce. simpl nonce.
      replace (nonce b + 1 + Z.of_nat j) with (nonce b + Z.of_nat (S j)) by lia.
      apply Hun. lia.
    + rewrite set_nonce_set_nonce. simpl nonce.
      replace (nonce b + 1 + Z.of_nat k) with (nonce b + Z.of_nat (S k)) by lia.
      exact Hsol.
    + lia.
Qed.

(** With the module's own globals the loop condition cannot be
    evaluated. *)
Lemma pow_loop_unbound (env : Env) (fuel : nat) (l : loc) (proof : string)
    (s : store) :
  global_difficulty env = None ->
  pow_loop env fuel l proof s = (Raise NameError, s).
Proof. intros H. destruct fuel; simpl; rewrite H; reflexivity. Qed.

(** What mining does once the name [difficulty] resolves and the search
    reaches a nonce whose digest ends the loop: it returns the digest of
    the first such nonce, which has the required prefix, and then resets
    the block's nonce to 0 (line 106), so that the digest recomputed from
    the block is the digest at nonce 0. *)
Lemma proof_of_work_resets_nonce (env : Env) (d : Z) (fuel k : nat)
    (l : loc) (b : Block) (s : store) :
  global_difficulty env = Some d ->
  s !! l = Some b ->
  (forall j : nat, (j < k)%nat ->
     pow_unsolved d (compute_hash (set_nonce (nonce b + Z.of_nat j) b)) = true) ->
  pow_unsolved d (compute_hash (set_nonce (nonce b + Z.of_nat k) b)) = false ->
  (k <= fuel)%nat ->
  let proof := compute_hash (set_nonce (nonce b + Z.of_nat k) b) in
  let b' := set_nonce 0 b in
  proof_of_work env fuel l s = (Return proof, <[l := b']> s)
  /\ str_slice_to proof d = str_mul "0" Blockchain_difficulty
  /\ (<[l := b']> s) !! l = Some b'
  /\ nonce b' = 0
  /\ (nonce b + Z.of_nat k = 0 -> compute_hash b' = proof).
Proof.
  intros Hd Hl Hun Hsol Hfuel proof b'. split; [|split; [|split; [|split]]].
  - unfold proof_of_work. unfold bind at 1. rewrite (read_some _ _ _ Hl).
    unfold bind at 1.
    rewrite (pow_loop_finds env d l Hd k fuel b s Hl Hun Hsol Hfuel).
    unfold bind at 1.
    rewrite (read_some _ l (set_nonce (nonce b + Z.of_nat k) b))
      by (eapply lookup_written, Hl).
    unfold bind, write, ret.
    rewrite set_nonce_set_nonce, list_insert_insert_eq. reflexivity.
  - unfold pow_unsolved in Hsol. apply negb_false_iff, String.eqb_eq in Hsol.
    exact Hsol.
  - eapply lookup_written, Hl.
  - reflexivity.
  - intros Hk. unfold proof, b'. rewrite Hk. reflexivity.
Qed.

(** ** Block construction *)

Lemma lookup_alloc (s : store) (b : Block) : (s ++ [b]) !! length s = Some b.
Proof. rewrite lookup_app_r by lia. rewrite Nat.sub_diag. reflexivity. Qed.

Lemma insert_alloc (s : store) (b b' : Block) :
  <[length s := b']> (s ++ [b]) = s ++ [b'].
Proof. rewrite insert_app_r_alt by lia. rewrite Nat.sub_diag. reflexivity. Qed.

Lemma Block_new_bound (env : Env) (generate_hash : Block -> string)
    (now : datetime) (i : Z) (txs : list Transaction) (ts : datetime)
    (ph : string) (s : store) :
  Block_generate_hash env = Some generate_hash ->
  Block_new env now i txs ts ph s
  = (Return (length s),
     s ++ [mkBlock i now txs ph 0
             (Some (generate_hash (Block_fields now i txs ts ph)))]).
Proof. intros H. unfold Block_new. rewrite H. reflexivity. Qed.

Lemma Block_new_unbound (env : Env) (now : datetime) (i : Z)
    (txs : list Transaction) (ts : datetime) (ph : string) (s : store) :
  Block_generate_hash env = None ->
  Block_new env now i txs ts ph s = (Raise AttributeError, s).
Proof. intros H. unfold Block_new. rewrite H. reflexivity. Qed.

(** ** add_block *)

Ltac run_monad :=
  unfold bind, ret, raise, get, get_self, put_self, on_store, read,
    write, alloc; simpl.

(** What [add_block] does on a ledger whose tip has a stored hash [h]: it
    appends the block when [h] is the block's [previous_hash] and the
    proof is valid, and otherwise returns [False] with the ledger and the
    store as they were. The store is never written. *)
Lemma add_block_spec (l tip : loc) (proof h : string) (tb b : Block)
    (bc : Blockchain) (s : store) :
  last (chain bc) = Some tip ->
  s !! tip = Some tb -> hash tb = Some h ->
  s !! l = Some b ->
  add_block l proof (mkWorld bc s)
  = if String.eqb h (previous_hash b) && is_valid b proof
    then (Return true,
          mkWorld (mkBlockchain (chain bc ++ [l]) (unconfirmed_transactions bc)
                     (previous_block bc)) s)
    else (Return false, mkWorld bc s).
Proof.
  intros Hlast Htip Hh Hl.
  unfold add_block, last_block, chain_append, getattr_hash. run_monad.
  rewrite Hlast. simpl. rewrite Htip. simpl. rewrite Hh. simpl. rewrite Hl.
  destruct (String.eqb h (previous_hash b)); simpl; [|reflexivity].
  destruct (is_valid b proof); reflexivity.
Qed.

Lemma add_block_no_hash (l tip : loc) (proof : string) (tb : Block)
    (bc : Blockchain) (s : store) :
  last (chain bc) = Some tip ->
  s !! tip = Some tb -> hash tb = None ->
  add_block l proof (mkWorld bc s) = (Raise AttributeError, mkWorld bc s).
Proof.
  intros Hlast Htip Hh.
  unfold add_block, last_block, chain_append, getattr_hash. run_monad.
  rewrite Hlast. simpl. rewrite Htip. simpl. rewrite Hh. reflexivity.
Qed.


(** ** Blockchain() *)

Lemma Blockchain_init_bound (env : Env) (generate_hash : Block -> string)
    (now_arg now : datetime) (s : store) :
  Block_generate_hash env = Some generate_hash ->
  let g := mkBlock 0 now [] "0" 0 None in
  Blockchain_init env now_arg now s
  = (Return (mkBlockchain [length s] [] (Some (compute_hash g))),
     s ++ [set_hash (Some (compute_hash g)) g]).
Proof.
  intros Hg g. unfold Blockchain_init, with_self, genesis_block.
  unfold bind at 1. unfold bind at 1. unfold bind at 1. unfold on_store at 1.
  rewrite (Block_new_bound env generate_hash) by exact Hg. simpl blocks.
  unfold bind at 1. unfold on_store at 1. simpl blocks.
  unfold bind at 1. rewrite (read_some _ _ _ (lookup_alloc _ _)).
  unfold write. rewrite insert_alloc.
  unfold last_block, chain_append, getattr_hash. run_monad.
  rewrite lookup_alloc. reflexivity.
Qed.

Lemma Blockchain_init_unbound (env : Env) (now_arg now : datetime) (s : store) :
  Block_generate_hash env = None ->
  Blockchain_init env now_arg now s = (Raise AttributeError, s).
Proof.
  intros Hg. unfold Blockchain_init, with_self, genesis_block.
  unfold bind at 1. unfold bind at 1. unfold bind at 1. unfold on_store at 1.
  rewrite Block_new_unbound by exact Hg. reflexivity.
Qed.

(** C10 at its failing input, [Blockchain()]: with the class as written
    the genesis block cannot be built (line 26 raises [AttributeError]),
    so no ledger is created, whatever the clock reads and whatever the
    store holds. *)
Theorem Blockchain_init_raises (now_arg now : datetime) (s : store) :
  Blockchain_init node_server_env now_arg now s = (Raise AttributeError, s)
  /\ forall bc s', Blockchain_init node_server_env now_arg now s <> (Return bc, s').
Proof.
  assert (H : Blockchain_init node_server_env now_arg now s
              = (Raise AttributeError, s))
    by (apply Blockchain_init_unbound; reflexivity).
  split; [exact H|].
  intros bc s'. rewrite H. discriminate.
Qed.

(** Were [generate_hash] bound, the ledger would start with exactly one
    block, of index 0 and previous hash ["0"]. *)
Lemma Blockchain_init_one_block (env : Env) (generate_hash : Block -> string)
    (now_arg now : datetime) (s s' : store) (bc : Blockchain) :
  Block_generate_hash env = Some generate_hash ->
  Blockchain_init env now_arg now s = (Return bc, s') ->
  exists l g, chain bc = [l] /\ s' !! l = Some g
              /\ index g = 0 /\ previous_hash g = "0"
              /\ hash g = Some (compute_hash g).
Proof.
  intros Hg H. rewrite (Blockchain_init_bound env generate_hash) in H by exact Hg.
  injection H as <- <-. eexists. eexists.
  split; [reflexivity|]. split; [apply lookup_alloc|]. repeat split.
Qed.

(** ** interface *)

Lemma interface_empty (env : Env) (fuel : nat) (now_arg now : datetime)
    (w : World) :
  unconfirmed_transactions (self w) = [] ->
  interface env fuel now_arg now w = (Return PyFalse, w).
Proof.
  intros H. unfold interface, bind, get_self. rewrite H. reflexivity.
Qed.

(** With the module as written a non-empty pool never gets as far as
    mining: the candidate is built with the keyword [timestamp], which
    [Block.__init__] does not have. *)
Lemma interface_type_error (env : Env) (fuel : nat) (now_arg now : datetime)
    (bc : Blockchain) (s : store) (tip : loc) (tb : Block) (h : string) :
  unconfirmed_transactions bc <> [] ->
  last (chain bc) = Some tip -> s !! tip = Some tb -> hash tb = Some h ->
  interface env fuel now_arg now (mkWorld bc s) = (Raise TypeError, mkWorld bc s).
Proof.
  intros Hne Hlast Htip Hh.
  destruct (unconfirmed_transactions bc) as [|t ts] eqn:Hu; [congruence|].
  unfold interface, last_block, getattr_hash. run_monad.
  rewrite Hu. simpl. rewrite Hlast. simpl. rewrite Htip. simpl.
  rewrite Htip, Hh. reflexivity.
Qed.

(** ** What the operations preserve *)

Section Preserves.
Context {S : Type} (R : S -> S -> Prop).
Hypothesis R_refl : forall s, R s s.
Hypothesis R_trans : forall a b c, R a b -> R b c -> R a c.

Lemma preserves_ret {A} (a : A) : preserves R (ret a).
Proof. intros s o s' H. injection H as _ <-. apply R_refl. Qed.

Lemma preserves_raise {A} (e : exn) : preserves R (@raise S A e).
Proof. intros s o s' H. injection H as _ <-. apply R_refl. Qed.

Lemma preserves_bind {A B} (m : M S A) (k : A -> M S B) :
  preserves R m -> (forall a, preserves R (k a)) -> preserves R (bind m k).
Proof.
  intros Hm Hk s o s' H. unfold bind in H.
  destruct (m s) as [[a|e| |] s1] eqn:E.
  - eapply R_trans; [eapply Hm, E | eapply Hk, H].
  - injection H as _ <-. eapply Hm, E.
  - injection H as _ <-. eapply Hm, E.
  - injection H as _ <-. eapply Hm, E.
Qed.
End Preserves.



Lemma chain_extends_refl (w : World) : chain_extends w w.
Proof. unfold chain_extends. reflexivity. Qed.

Lemma chain_extends_trans (a b c : World) :
  chain_extends a b -> chain_extends b c -> chain_extends a c.
Proof. unfold chain_extends. intros H1 H2. etransitivity; eassumption. Qed.


Ltac step_chain :=
  first [ apply (preserves_ret chain_extends chain_extends_refl)
        | apply (preserves_raise chain_extends chain_extends_refl)
        | apply (preserves_bind chain_extends chain_extends_trans);
          [|intros ?] ].

(** Operations on the receiver leave the store alone; reads leave
    everything alone. *)
Lemma get_self_same (R : World -> World -> Prop) :
  (forall w, R w w) -> preserves R get_self.
Proof. intros HR w o w' H. injection H as _ <-. apply HR. Qed.

Lemma last_block_same (R : World -> World -> Prop) :
  (forall w, R w w) -> preserves R last_block.
Proof.
  intros HR w o w' H. unfold last_block, bind, get_self in H.
  destruct (last (chain (self w))); injection H as _ <-; apply HR.
Qed.





Lemma chain_append_chain (l : loc) : preserves chain_extends (chain_append l).
Proof.
  intros w o w' H. unfold chain_append, bind, get_self, put_self in H.
  injection H as _ <-. unfold chain_extends. simpl. apply prefix_app_r. reflexivity.
Qed.

Lemma on_store_chain {A} (m : M store A) : preserves chain_extends (on_store m).
Proof.
  intros w o w' H. unfold on_store in H. destruct (m (blocks w)) as [o1 s1].
  injection H as _ <-. unfold chain_extends. reflexivity.
Qed.


(** The second half of C10 holds: submitting a transaction, appending a
    block and mining the pool never remove a block from the chain. *)
Lemma add_block_chain (l : loc) (proof : string) :
  preserves chain_extends (add_block l proof).
Proof.
  unfold add_block. step_chain; [apply last_block_same, chain_extends_refl|].
  step_chain; [apply on_store_chain|].
  step_chain; [apply on_store_chain|].
  destruct (negb _); [step_chain|]. destruct (negb _); [step_chain|].
  step_chain; [apply chain_append_chain | step_chain].
Qed.

Lemma add_new_transaction_chain (t : Transaction) :
  preserves chain_extends (add_new_transaction t).
Proof.
  intros w o w' H. unfold add_new_transaction, bind, get_self, put_self in H.
  injection H as _ <-. unfold chain_extends. reflexivity.
Qed.

Lemma interface_mine_chain (env : Env) (fuel : nat) (l : loc) :
  preserves chain_extends (interface_mine env fuel l).
Proof.
  unfold interface_mine. step_chain; [apply on_store_chain|].
  step_chain; [apply add_block_chain|].
  intros [bc s] o w' H.
  unfold bind, get_self, put_self, on_store, read, ret in H. simpl in H.
  destruct (s !! l); injection H as _ <-; unfold chain_extends; reflexivity.
Qed.

Lemma interface_chain (env : Env) (fuel : nat) (now_arg now : datetime) :
  preserves chain_extends (interface env fuel now_arg now).
Proof.
  unfold interface. step_chain; [apply get_self_same, chain_extends_refl|].
  destruct (unconfirmed_transactions _); [step_chain|].
  step_chain; [apply last_block_same, chain_extends_refl|].
  step_chain; [apply on_store_chain|].
  step_chain; [apply on_store_chain|].
  step_chain; [apply on_store_chain|].
  apply interface_mine_chain.
Qed.

(** ** create_chain_from_dump *)







(** ** consensus *)

Lemma check_chain_validity_dicts (c : list BlockData) (s : store) :
  check_chain_validity (map PDict c) s
  = match c with
    | [] => (Return true, s)
    | _ :: _ => (Raise AttributeError, s)
    end.
Proof. destruct c; reflexivity. Qed.

(** The loop never comes out with a non-empty chain selected: a peer's
    chain passes the validity check only when it is empty. *)
Lemma consensus_loop_selection (env : Env) (nodes : list string) :
  forall (longest r : option (list BlockData)) (cur c : Z) (s s' : store),
    consensus_loop env nodes longest cur s = (Return (r, c), s') ->
    r = longest \/ r = Some [].
Proof.
  induction nodes as [|node rest IH]; intros longest r cur c s s' H; simpl in H.
  - injection H as <- _ _. left. reflexivity.
  - destruct (global_requests env) as [requests_get|]; [|discriminate].
    unfold bind at 1 in H.
    destruct (cur <? r_length (requests_get (node +:+ "/chain"))).
    + rewrite check_chain_validity_dicts in H.
      destruct (r_chain (requests_get (node +:+ "/chain"))) as [|d ds];
        [|discriminate].
      apply IH in H. destruct H as [H|H]; right; exact H.
    + apply IH in H. exact H.
Qed.

Lemma consensus_never_replaces (env : Env) (n n' : Node) :
  consensus env n <> (Return true, n').
Proof.
  unfold consensus. unfold bind at 1. unfold get at 1.
  destruct (blockchain n) as [bc|c]; [|discriminate].
  unfold bind at 1. unfold on_node_store at 1.
  destruct (consensus_loop env (participants n) None
              (Z.of_nat (length (chain bc))) (node_blocks n))
    as [[[r c]|e| |] s1] eqn:E; try discriminate.
  apply consensus_loop_selection in E.
  destruct E as [-> | ->]; discriminate.
Qed.

(** C4 at its failing input: the local chain has one block and the only
    peer serves a chain of two, the second linked to the first and mined
    to the difficulty. With the module as written the fetch itself raises
    [NameError] (the name [requests] is unbound); with [requests] bound
    the validity check raises [AttributeError] on the first dict. The
    longer chain is never taken. *)
Theorem consensus_raises :
  Z.of_nat (length (chain ex_ledger))
    < r_length (ex_requests "http://127.0.0.1:8001/chain")
  /\ length (r_chain (ex_requests "http://127.0.0.1:8001/chain")) = 2%nat
  /\ consensus node_server_env ex_node = (Raise NameError, ex_node)
  /\ consensus ex_env ex_node = (Raise AttributeError, ex_node).
Proof.
  split; [reflexivity|]. split; [reflexivity|].
  split; vm_compute; reflexivity.
Qed.

(** * Further properties of the code *)

(** ** The shape of a digest *)

Lemma string_length_app (a b : string) :
  String.length (a +:+ b) = (String.length a + String.length b)%nat.
Proof.
  induction a as [|c a IH]; [reflexivity|].
  change (String c a +:+ b) with (String c (a +:+ b)). simpl. rewrite IH. reflexivity.
Qed.

Lemma hex_length (n : nat) (x : Z) : String.length (SHA256.hex n x) = n.
Proof. induction n as [|n IH]; simpl; [reflexivity | rewrite IH; reflexivity]. Qed.

Lemma words_length (n : nat) (bs : list Z) : length (SHA256.words n bs) = n.
Proof.
  revert bs. induction n as [|n IH]; intros bs; simpl; [reflexivity|].
  rewrite IH. reflexivity.
Qed.

(** A round keeps the eight working variables and the sixteen-word
    window of the schedule. *)
Lemma round_shape (st : list Z * list Z) (k : Z) :
  length (fst st) = 8%nat -> length (snd st) = 16%nat ->
  length (fst (SHA256.round st k)) = 8%nat
  /\ length (snd (SHA256.round st k)) = 16%nat.
Proof.
  destruct st as [v win]. simpl fst. simpl snd. intros Hv Hw.
  destruct v as [|a [|b [|c [|d [|e [|f [|g [|h [|x v]]]]]]]]]; try discriminate.
  destruct win as [|w0 wrest]; [discriminate|].
  unfold SHA256.round. cbn [fst snd length].
  split; [reflexivity|].
  rewrite length_app. simpl in Hw. simpl. lia.
Qed.

Lemma rounds_shape (ks : list Z) :
  forall st : list Z * list Z,
    length (fst st) = 8%nat -> length (snd st) = 16%nat ->
    length (fst (fold_left SHA256.round ks st)) = 8%nat.
Proof.
  induction ks as [|k ks IH]; intros st Hv Hw; [exact Hv|].
  simpl fold_left. destruct (round_shape st k Hv Hw) as [Hv' Hw'].
  apply IH; assumption.
Qed.

Lemma compress_length (hs block : list Z) :
  length hs = 8%nat -> length (SHA256.compress hs block) = 8%nat.
Proof.
  intros Hh. unfold SHA256.compress. rewrite length_zip_with.
  rewrite (rounds_shape SHA256.K (hs, SHA256.words 16 block) Hh (words_length _ _)).
  lia.
Qed.

Lemma blocks_length (n : nat) :
  forall hs bs : list Z,
    length hs = 8%nat -> length (SHA256.blocks n hs bs) = 8%nat.
Proof.
  induction n as [|n IH]; intros hs bs Hh; simpl; [exact Hh|].
  apply IH, compress_length, Hh.
Qed.

Lemma hexdigest_length (s : string) : String.length (SHA256.hexdigest s) = 64%nat.
Proof.
  unfold SHA256.hexdigest, SHA256.digest.
  pose proof (blocks_length
                (Nat.div (length (SHA256.pad (SHA256.bytes_of_string s))) 64)
                SHA256.H0 (SHA256.pad (SHA256.bytes_of_string s)) eq_refl) as H.
  destruct (SHA256.blocks _ SHA256.H0 _)
    as [|a [|b [|c [|d [|e [|f [|g [|h [|x v]]]]]]]]]; try discriminate.
  cbn [fold_right]. rewrite !string_length_app, !hex_length. reflexivity.
Qed.

Lemma all_chars_app (p : ascii -> bool) (a b : string) :
  all_chars p (a +:+ b) = all_chars p a && all_chars p b.
Proof.
  induction a as [|c a IH]; [reflexivity|].
  change (String c a +:+ b) with (String c (a +:+ b)). simpl.
  rewrite IH, andb_assoc. reflexivity.
Qed.

Lemma hex_digit_ok (d : Z) : 0 <= d < 16 -> is_hex_digit (SHA256.hex_digit d) = true.
Proof.
  intros Hd.
  assert (H : d = 0 \/ d = 1 \/ d = 2 \/ d = 3 \/ d = 4 \/ d = 5 \/ d = 6
              \/ d = 7 \/ d = 8 \/ d = 9 \/ d = 10 \/ d = 11 \/ d = 12
              \/ d = 13 \/ d = 14 \/ d = 15) by lia.
  repeat (destruct H as [->|H]; [reflexivity|]). subst d. reflexivity.
Qed.

Lemma hex_chars (n : nat) (x : Z) : all_chars is_hex_digit (SHA256.hex n x) = true.
Proof.
  induction n as [|n IH]; simpl; [reflexivity|].
  rewrite IH, andb_true_r. apply hex_digit_ok.
  change 15 with (Z.ones 4). rewrite Z.land_ones by lia.
  apply Z.mod_pos_bound. lia.
Qed.

Lemma hexdigest_chars (s : string) :
  all_chars is_hex_digit (SHA256.hexdigest s) = true.
Proof.
  unfold SHA256.hexdigest.
  induction (SHA256.digest (SHA256.bytes_of_string s)) as [|w ws IH];
    [reflexivity|].
  cbn [fold_right]. rewrite all_chars_app, hex_chars, IH. reflexivity.
Qed.

(** The digest of a block is always 64 lowercase hexadecimal digits, so a
    hash that [is_valid] accepts has exactly that shape and starts with
    two zeros. *)
Theorem compute_hash_shape (b : Block) (block_hash : string) :
  (String.length (compute_hash b) = 64%nat
   /\ all_chars is_hex_digit (compute_hash b) = true)
  /\ (is_valid b block_hash = true ->
      String.length block_hash = 64%nat
      /\ all_chars is_hex_digit block_hash = true
      /\ str_slice_to block_hash 2 = "00").
Proof.
  assert (Hs : String.length (compute_hash b) = 64%nat
               /\ all_chars is_hex_digit (compute_hash b) = true).
  { unfold compute_hash. split; [apply hexdigest_length | apply hexdigest_chars]. }
  split; [exact Hs|].
  intros Hv. unfold is_valid in Hv. apply andb_true_iff in Hv as [Hp He].
  apply String.eqb_eq in He. subst block_hash.
  destruct Hs as [Hlen Hch]. split; [exact Hlen|]. split; [exact Hch|].
  apply startswith_app in Hp as [rest Hr]. rewrite Hr.
  rewrite Hr in Hlen. rewrite zeros_difficulty in *.
  unfold str_slice_to. rewrite Hlen.
  change ("00" +:+ rest) with (String "0" (String "0" rest)).
  destruct rest; reflexivity.
Qed.

Lemma compute_hash_shape_witness :
  is_valid (ex_solved None) ex_solved_hash = true
  /\ String.length ex_solved_hash = 64%nat.
Proof.
  split; [vm_compute; reflexivity|].
  apply (proj2 (compute_hash_shape (ex_solved None) ex_solved_hash)).
  vm_compute. reflexivity.
Defined.

(** ** proof_of_work: the loop test *)

Lemma substring_length (n : nat) (s : string) :
  String.length (substring 0 n s) = Nat.min n (String.length s).
Proof.
  revert s. induction n as [|n IH]; intros [|c s]; simpl; try reflexivity.
  rewrite IH. reflexivity.
Qed.

Lemma str_slice_to_length (s : string) (n : Z) :
  String.length s = 64%nat ->
  String.length (str_slice_to s n)
  = Z.to_nat (if n <? 0 then Z.max 0 (64 + n) else Z.min n 64).
Proof.
  intros Hs. unfold str_slice_to. rewrite substring_length, Hs.
  change (Z.of_nat 64) with 64.
  destruct (n <? 0) eqn:Hn; [apply Z.ltb_lt in Hn | apply Z.ltb_ge in Hn]; lia.
Qed.

(** The test compares the first [difficulty] characters of the digest
    with a string of [Blockchain.difficulty] zeros: it can only fail to
    hold, and the loop only end, when the two lengths agree. *)
Lemma pow_unsolved_mismatch (d : Z) (proof : string) :
  String.length proof = 64%nat ->
  d <> Blockchain_difficulty -> d <> -62 ->
  pow_unsolved d proof = true.
Proof.
  intros Hlen Hd Hneg. unfold pow_unsolved. apply negb_true_iff.
  apply String.eqb_neq. intros Heq.
  pose proof (str_slice_to_length proof d Hlen) as Hl.
  rewrite Heq, zeros_difficulty in Hl. unfold Blockchain_difficulty in Hd.
  simpl String.length in Hl.
  destruct (d <? 0) eqn:Hn; [apply Z.ltb_lt in Hn | apply Z.ltb_ge in Hn]; lia.
Qed.

Lemma pow_loop_mismatch (env : Env) (d : Z) (l : loc) :
  global_difficulty env = Some d ->
  d <> Blockchain_difficulty -> d <> -62 ->
  forall (fuel : nat) (b : Block) (s : store),
    s !! l = Some b ->
    pow_loop env fuel l (compute_hash b) s
    = (OutOfFuel, <[l := set_nonce (nonce b + Z.of_nat fuel) b]> s).
Proof.
  intros Hd Hne Hneg. induction fuel as [|fuel IH]; intros b s Hl.
  - simpl. rewrite Hd.
    rewrite pow_unsolved_mismatch
      by (try assumption; unfold compute_hash; apply hexdigest_length).
    change (Z.of_nat 0) with 0. rewrite Z.add_0_r, set_nonce_same.
    rewrite (list_insert_id _ _ _ Hl). reflexivity.
  - simpl. rewrite Hd.
    rewrite pow_unsolved_mismatch
      by (try assumption; unfold compute_hash; apply hexdigest_length).
    unfold bind at 1. rewrite (read_some _ _ _ Hl).
    unfold bind at 1. unfold write at 1. unfold bind at 1.
    rewrite (read_some _ l (set_nonce (nonce b + 1) b))
      by (eapply lookup_written, Hl).
    rewrite (IH (set_nonce (nonce b + 1) b))
      by (eapply lookup_written, Hl).
    rewrite set_nonce_set_nonce, list_insert_insert_eq. simpl nonce.
    replace (nonce b + 1 + Z.of_nat fuel) with (nonce b + Z.of_nat (S fuel)) by lia.
    reflexivity.
Qed.

(** Whatever integer the global [difficulty] is bound to, other than
    [Blockchain.difficulty] itself (or -62, which also cuts two
    characters), mining never returns: every iteration fails the test,
    the nonce goes up by one per iteration, and it is never reset. *)
Theorem proof_of_work_mismatch (env : Env) (d : Z) (fuel : nat) (l : loc)
    (b : Block) (s : store) :
  global_difficulty env = Some d ->
  d <> Blockchain_difficulty -> d <> -62 ->
  s !! l = Some b ->
  proof_of_work env fuel l s
  = (OutOfFuel, <[l := set_nonce (nonce b + Z.of_nat fuel) b]> s).
Proof.
  intros Hd Hne Hneg Hl. unfold proof_of_work.
  unfold bind at 1. rewrite (read_some _ _ _ Hl).
  unfold bind at 1.
  rewrite (pow_loop_mismatch env d l Hd Hne Hneg fuel b s Hl). reflexivity.
Qed.

Lemma proof_of_work_mismatch_witness :
  proof_of_work (mkEnv None (Some 3) None) 4 1%nat [ex_genesis; ex_solved None]
  = (OutOfFuel, [ex_genesis; set_nonce 4 (ex_solved None)]).
Proof.
  apply (proof_of_work_mismatch (mkEnv None (Some 3) None) 3 4 1%nat
           (ex_solved None) [ex_genesis; ex_solved None]).
  - reflexivity.
  - discriminate.
  - discriminate.
  - reflexivity.
Defined.

(** With the module's own globals mining fails on its first loop test,
    for every block, and the block is left as it was. *)
Theorem proof_of_work_name_error (fuel : nat) (l : loc) (s : store) :
  proof_of_work node_server_env fuel l s
  = (match s !! l with
     | Some _ => Raise NameError
     | None => Dangling
     end, s).
Proof.
  unfold proof_of_work. unfold bind at 1. unfold read at 1.
  destruct (s !! l) as [b|] eqn:Hl; [|reflexivity].
  unfold bind at 1. rewrite pow_loop_unbound by reflexivity. reflexivity.
Qed.

(** ** interface, as written *)

(** Whatever names are bound, [interface] leaves the ledger and the store
    exactly as they were and never returns a block index: with an empty
    pool it returns [False], and with a non-empty pool it raises
    ([IndexError] on an empty chain, [AttributeError] when the tip has no
    hash, [TypeError] from the keyword [timestamp] otherwise) before
    anything is mined, appended or cleared. *)
Theorem interface_changes_nothing (env : Env) (fuel : nat)
    (now_arg now : datetime) (w : World) :
  snd (interface env fuel now_arg now w) = w
  /\ (forall i, fst (interface env fuel now_arg now w) <> Return (PyInt i))
  /\ (fst (interface env fuel now_arg now w) = Return PyFalse
      <-> unconfirmed_transactions (self w) = [])
  /\ (unconfirmed_transactions (self w) <> [] ->
      forall tip tb h,
        last (chain (self w)) = Some tip -> blocks w !! tip = Some tb ->
        hash tb = Some h ->
        fst (interface env fuel now_arg now w) = Raise TypeError).
Proof.
  destruct w as [bc s]. simpl self. simpl blocks.
  destruct (unconfirmed_transactions bc) as [|t ts] eqn:Hu.
  - rewrite (interface_empty env fuel now_arg now (mkWorld bc s) Hu).
    simpl. repeat split; try discriminate; try congruence.
  - assert (Hcases :
      interface env fuel now_arg now (mkWorld bc s)
      = (match last (chain bc) with
         | None => Raise IndexError
         | Some tip =>
             match s !! tip with
             | None => Dangling
             | Some tb =>
                 match hash tb with
                 | None => Raise AttributeError
                 | Some _ => Raise TypeError
                 end
             end
         end, mkWorld bc s)).
    { unfold interface, last_block, getattr_hash. run_monad.
      rewrite Hu. simpl.
      destruct (last (chain bc)) as [tip|]; simpl; [|reflexivity].
      destruct (s !! tip) as [tb|] eqn:Htip; simpl; [|reflexivity].
      rewrite Htip. destruct (hash tb); reflexivity. }
    rewrite Hcases. simpl.
    split; [reflexivity|]. split.
    + intros i. destruct (last (chain bc)) as [tip|]; [|discriminate].
      destruct (s !! tip) as [tb|]; [|discriminate].
      destruct (hash tb); discriminate.
    + split.
      * split; [|discriminate].
        destruct (last (chain bc)) as [tip|]; [|discriminate].
        destruct (s !! tip) as [tb|]; [|discriminate].
        destruct (hash tb); discriminate.
      * intros _ tip tb h Hlast Htip Hh. rewrite Hlast, Htip, Hh. reflexivity.
Qed.

Lemma interface_changes_nothing_witness :
  fst (interface ex_env 5 "2024-01-01 00:00:02" "2024-01-01 00:00:03"
         (mkWorld ex_ledger [ex_genesis]))
  = Raise TypeError.
Proof.
  apply (proj2 (proj2 (proj2
           (interface_changes_nothing ex_env 5 "2024-01-01 00:00:02"
              "2024-01-01 00:00:03" (mkWorld ex_ledger [ex_genesis]))))
           ltac:(discriminate) 0%nat ex_genesis ex_genesis_hash);
    reflexivity.
Defined.

(** ** The chain only grows *)

(** Submitting a transaction, appending a block and mining the pool never
    remove or reorder blocks: whatever the outcome, a return or a raise,
    the chain before is a prefix of the chain after. *)
Theorem chain_only_grows (env : Env) (fuel : nat) (now_arg now : datetime)
    (t : Transaction) (l : loc) (proof : string) (w : World) :
  chain (self w) `prefix_of` chain (self (snd (add_new_transaction t w)))
  /\ chain (self w) `prefix_of` chain (self (snd (add_block l proof w)))
  /\ chain (self w)
     `prefix_of` chain (self (snd (interface env fuel now_arg now w)))
  /\ chain (self w)
     `prefix_of` chain (self (snd (interface_mine env fuel l w))).
Proof.
  repeat split.
  - destruct (add_new_transaction t w) as [o w'] eqn:E.
    exact (add_new_transaction_chain t w o w' E).
  - destruct (add_block l proof w) as [o w'] eqn:E.
    exact (add_block_chain l proof w o w' E).
  - destruct (interface env fuel now_arg now w) as [o w'] eqn:E.
    exact (interface_chain env fuel now_arg now w o w' E).
  - destruct (interface_mine env fuel l w) as [o w'] eqn:E.
    exact (interface_mine_chain env fuel l w o w' E).
Qed.

(** ** add_block *)

(** On a ledger whose tip has a stored hash, [add_block] accepts a block
    exactly when the block's [previous_hash] is that hash and the proof
    passes [is_valid]. On acceptance the block goes to the end of the
    chain and nothing else changes; on refusal nothing changes at all. *)
Theorem add_block_accepts_iff (l tip : loc) (proof h : string) (tb b : Block)
    (bc : Blockchain) (s : store) :
  last (chain bc) = Some tip ->
  s !! tip = Some tb -> hash tb = Some h ->
  s !! l = Some b ->
  (fst (add_block l proof (mkWorld bc s)) = Return true
   <-> previous_hash b = h /\ is_valid b proof = true)
  /\ (fst (add_block l proof (mkWorld bc s)) = Return true ->
      snd (add_block l proof (mkWorld bc s))
      = mkWorld (mkBlockchain (chain bc ++ [l]) (unconfirmed_transactions bc)
                   (previous_block bc)) s)
  /\ (fst (add_block l proof (mkWorld bc s)) <> Return true ->
      add_block l proof (mkWorld bc s) = (Return false, mkWorld bc s)).
Proof.
  intros Hlast Htip Hh Hl.
  rewrite (add_block_spec l tip proof h tb b bc s Hlast Htip Hh Hl).
  destruct (String.eqb_spec h (previous_hash b)) as [Heq|Hne];
    destruct (is_valid b proof) eqn:Hv; simpl;
    (split; [split; [intros H; try discriminate; split; congruence
                    | intros [H1 H2]; congruence]|]);
    split; intros H; try reflexivity; try congruence.
Qed.

Lemma add_block_accepts_iff_witness :
  fst (add_block 1%nat ex_solved_hash
         (mkWorld (mkBlockchain [0%nat] [] (Some ex_genesis_hash))
            [ex_genesis; ex_solved (Some ex_solved_hash)]))
  = Return true.
Proof.
  apply (proj1 (add_block_accepts_iff 1%nat 0%nat ex_solved_hash ex_genesis_hash
                  ex_genesis (ex_solved (Some ex_solved_hash))
                  (mkBlockchain [0%nat] [] (Some ex_genesis_hash))
                  [ex_genesis; ex_solved (Some ex_solved_hash)]
                  eq_refl eq_refl eq_refl eq_refl)).
  split; [reflexivity | vm_compute; reflexivity].
Defined.

Lemma add_block_eval (l : loc) (proof : string) (bc : Blockchain) (s : store) :
  add_block l proof (mkWorld bc s)
  = match last (chain bc) with
    | None => (Raise IndexError, mkWorld bc s)
    | Some tip =>
        match s !! tip with
        | None => (Dangling, mkWorld bc s)
        | Some tb =>
            match hash tb with
            | None => (Raise AttributeError, mkWorld bc s)
            | Some h =>
                match s !! l with
                | None => (Dangling, mkWorld bc s)
                | Some b =>
                    if String.eqb h (previous_hash b) && is_valid b proof
                    then (Return true,
                          mkWorld (mkBlockchain (chain bc ++ [l])
                                     (unconfirmed_transactions bc)
                                     (previous_block bc)) s)
                    else (Return false, mkWorld bc s)
                end
            end
        end
    end.
Proof.
  unfold add_block, last_block, chain_append, getattr_hash. run_monad.
  destruct (last (chain bc)) as [tip|]; simpl; [|reflexivity].
  destruct (s !! tip) as [tb|]; simpl; [|reflexivity].
  destruct (hash tb) as [h|]; simpl; [|reflexivity].
  destruct (s !! l) as [b|]; simpl; [|reflexivity].
  destruct (String.eqb h (previous_hash b)); simpl; [|reflexivity].
  destruct (is_valid b proof); reflexivity.
Qed.

(** The digest covers the timestamp, the transactions, the previous hash
    and the nonce, not the index; and [add_block] never looks at the index
    either. So a block is accepted or refused, and the chain ends up the
    same, whatever index the block carries. *)
Theorem add_block_ignores_index (i : Z) (l : loc) (proof : string)
    (bc : Blockchain) (s : store) (b : Block) :
  compute_hash (set_index i b) = compute_hash b
  /\ is_valid (set_index i b) proof = is_valid b proof
  /\ fst (add_block l proof (mkWorld bc (alter (set_index i) l s)))
     = fst (add_block l proof (mkWorld bc s))
  /\ self (snd (add_block l proof (mkWorld bc (alter (set_index i) l s))))
     = self (snd (add_block l proof (mkWorld bc s))).
Proof.
  split; [reflexivity|]. split; [reflexivity|].
  rewrite !add_block_eval.
  destruct (last (chain bc)) as [tip|]; [|split; reflexivity].
  assert (Htip : alter (set_index i) l s !! tip
                 = set_index i <$> s !! tip \/
                 alter (set_index i) l s !! tip = s !! tip).
  { destruct (decide (l = tip)) as [->|Hne].
    - left. apply list_lookup_alter_eq.
    - right. apply list_lookup_alter_ne. exact Hne. }
  rewrite (list_lookup_alter_eq (set_index i) s l).
  destruct Htip as [-> | ->];
    destruct (s !! tip) as [tb|]; simpl; try (split; reflexivity);
    destruct (hash tb) as [h|]; simpl; try (split; reflexivity);
    destruct (s !! l) as [b'|]; simpl; try (split; reflexivity);
    change (is_valid (set_index i b') proof) with (is_valid b' proof);
    destruct (String.eqb h (previous_hash b') && is_valid b' proof);
    split; reflexivity.
Qed.

(** ** add_new_transaction *)

(** Transactions submitted one after another end up at the end of the
    pool in arrival order, duplicates included; the chain and the blocks
    are not touched. *)
Theorem add_new_transactions_appends (txs : list Transaction) (bc : Blockchain)
    (s : store) :
  add_new_transactions txs (mkWorld bc s)
  = (Return tt,
     mkWorld (mkBlockchain (chain bc) (unconfirmed_transactions bc ++ txs)
                (previous_block bc)) s).
Proof.
  revert bc. induction txs as [|t txs IH]; intros bc.
  - simpl. unfold ret. rewrite app_nil_r. destruct bc; reflexivity.
  - simpl. unfold bind at 1. unfold add_new_transaction, bind, get_self, put_self.
    simpl. rewrite IH. simpl. rewrite <- app_assoc. reflexivity.
Qed.

(** ** consensus, as a whole *)

Lemma consensus_loop_store (env : Env) (nodes : list string) :
  forall (longest : option (list BlockData)) (cur : Z) (s : store),
    snd (consensus_loop env nodes longest cur s) = s.
Proof.
  induction nodes as [|node rest IH]; intros longest cur s; simpl;
    [reflexivity|].
  destruct (global_requests env) as [requests_get|]; [|reflexivity].
  unfold bind at 1.
  destruct (cur <? r_length (requests_get (node +:+ "/chain"))).
  - rewrite check_chain_validity_dicts.
    destruct (r_chain (requests_get (node +:+ "/chain"))); [apply IH | reflexivity].
  - apply IH.
Qed.

(** [consensus] never replaces the chain: for every binding of
    [requests], every set of participants and every answer of the peers
    it leaves the node (its [blockchain], participants and blocks) as it
    found it and does not return [True]. Without participants it returns
    [False]; with participants and the module's own globals it raises
    [NameError]. *)
Theorem consensus_keeps_node (env : Env) (n : Node) :
  snd (consensus env n) = n
  /\ fst (consensus env n) <> Return true
  /\ (forall bc, blockchain n = GLedger bc -> participants n = [] ->
      fst (consensus env n) = Return false)
  /\ (forall bc, blockchain n = GLedger bc -> participants n <> [] ->
      global_requests env = None ->
      fst (consensus env n) = Raise NameError).
Proof.
  destruct n as [g ps st].
  split; [|split; [|split]].
  - unfold consensus. unfold bind at 1. unfold get at 1. simpl blockchain.
    destruct g as [bc|c]; [|reflexivity].
    unfold bind at 1. unfold on_node_store at 1. simpl.
    pose proof (consensus_loop_store env ps None (Z.of_nat (length (chain bc))) st)
      as Hst.
    destruct (consensus_loop env ps None (Z.of_nat (length (chain bc))) st)
      as [[[r c]|e| |] s1] eqn:E; simpl in Hst; subst s1; try reflexivity.
    apply consensus_loop_selection in E.
    destruct E as [-> | ->]; reflexivity.
  - destruct (consensus env (mkNode g ps st)) as [o n'] eqn:E. simpl.
    intros ->. exact (consensus_never_replaces env _ _ E).
  - intros bc Hg Hps. simpl in Hg, Hps. subst g ps. reflexivity.
  - intros bc Hg Hps Hreq. simpl in Hg, Hps. subst g.
    destruct ps as [|p ps]; [congruence|].
    unfold consensus, bind, get, on_node_store. simpl. rewrite Hreq. reflexivity.
Qed.

Lemma consensus_keeps_node_witness :
  fst (consensus node_server_env ex_node) = Raise NameError
  /\ fst (consensus ex_env (mkNode (GLedger ex_ledger) [] [ex_genesis]))
     = Return false.
Proof.
  split.
  - apply (proj2 (proj2 (proj2 (consensus_keeps_node node_server_env ex_node)))
             ex_ledger eq_refl ltac:(discriminate) eq_refl).
  - apply (proj1 (proj2 (proj2 (consensus_keeps_node ex_env
             (mkNode (GLedger ex_ledger) [] [ex_genesis]))))
             ex_ledger eq_refl eq_refl).
Defined.

(** ** Rebuilding from a dump *)








Lemma bind_ext {S A B} (m : M S A) (k k' : A -> M S B) (s : S) :
  (forall a s1, k a s1 = k' a s1) -> bind m k s = bind m k' s.
Proof.
  intros H. unfold bind. destruct (m s) as [[a|e| |] s1]; try reflexivity.
  apply H.
Qed.

Lemma dump_loop_same_content (env : Env) (clock : nat -> datetime)
    (dump dump' : list BlockData) :
  Forall2 same_content dump dump' ->
  forall (idx : nat) (w : World),
    dump_loop env clock idx dump w = dump_loop env clock idx dump' w.
Proof.
  induction 1 as [|d d' rest rest' (Hi & Ht & Hp & Hh) _ IH]; intros idx w;
    [reflexivity|].
  simpl. rewrite Hi, Ht, Hp, Hh.
  change (Block_new env (clock idx) (d_index d') (d_transactions d')
            (d_timestamp d) (d_previous_hash d'))
    with (Block_new env (clock idx) (d_index d') (d_transactions d')
            (d_timestamp d') (d_previous_hash d')).
  apply bind_ext. intros l w1. apply bind_ext. intros _ w2. apply IH.
Qed.

(** A rebuild never uses the [timestamp] or the [nonce] of a dump entry:
    every block is built with the clock reading of the moment and nonce
    0. Two dumps that differ only in those fields are rebuilt, or
    refused, identically. *)
Theorem create_chain_from_dump_same_content (env : Env) (now_arg now : datetime)
    (clock : nat -> datetime) (dump dump' : list BlockData) (s : store) :
  Forall2 same_content dump dump' ->
  create_chain_from_dump env now_arg now clock dump s
  = create_chain_from_dump env now_arg now clock dump' s.
Proof.
  intros H. unfold create_chain_from_dump.
  unfold bind at 1. unfold bind at 2.
  destruct (Blockchain_init env now_arg now s) as [[bc|e| |] s1]; try reflexivity.
  unfold bind, with_self.
  rewrite (dump_loop_same_content env clock dump dump' H). reflexivity.
Qed.

Lemma create_chain_from_dump_same_content_witness :
  create_chain_from_dump ex_env "2024-01-01 00:00:03" "2024-01-01 00:00:04"
    (fun _ => "2024-01-01 00:00:05")
    [mkBlockData 0 [] "2024-01-01 00:00:00.000000" "0" 0 ex_genesis_hash] []
  = create_chain_from_dump ex_env "2024-01-01 00:00:03" "2024-01-01 00:00:04"
      (fun _ => "2024-01-01 00:00:05")
      [mkBlockData 0 [] "1999-12-31 23:59:59" "0" 77 ex_genesis_hash] [].
Proof.
  apply create_chain_from_dump_same_content.
  constructor; [repeat split | constructor].
Defined.

(** ** The genesis block *)

(** When [Blockchain()] returns, the new ledger holds exactly one block,
    freshly allocated: index 0, no transactions, previous hash ["0"],
    nonce 0, the clock reading taken inside the constructor as timestamp,
    and as stored hash its own digest (whatever [generate_hash] had
    returned is overwritten). The pool is empty and [previous_block] is
    that hash. Blocks already in the store are untouched. *)
Theorem Blockchain_init_genesis (env : Env) (now_arg now : datetime)
    (s s' : store) (bc : Blockchain) :
  Blockchain_init env now_arg now s = (Return bc, s') ->
  exists g,
    s' = s ++ [g]
    /\ bc = mkBlockchain [length s] [] (hash g)
    /\ g = mkBlock 0 now [] "0" 0 (Some (compute_hash g)).
Proof.
  intros H. destruct (Block_generate_hash env) as [gh|] eqn:Hg.
  - rewrite (Blockchain_init_bound env gh) in H by exact Hg.
    injection H as <- <-. eexists. split; [reflexivity|].
    split; reflexivity.
  - rewrite Blockchain_init_unbound in H by exact Hg. discriminate.
Qed.

Lemma Blockchain_init_genesis_witness :
  exists bc s',
    Blockchain_init ex_env "2024-01-01 00:00:00" "2024-01-01 00:00:00.000000"
      [] = (Return bc, s')
    /\ s' = [ex_genesis].
Proof.
  eexists. eexists. split; [vm_compute; reflexivity|].
  destruct (Blockchain_init_genesis ex_env "2024-01-01 00:00:00"
              "2024-01-01 00:00:00.000000" [] _ _
              ltac:(vm_compute; reflexivity)) as (g & Hs & _ & _).
  reflexivity.
Defined.

(** ** Validation and appending together *)

(** Checking a chain whose first block is the ledger's tip (a ledger of
    one block checking its own chain) removes the tip's hash for good:
    from then on every [add_block] raises [AttributeError] and changes
    nothing, and a second check raises again without changing the store
    further. *)
Theorem check_then_add_block (s : store) (l : loc) (b : Block)
    (rest : list pyobj) (bc : Blockchain) :
  s !! l = Some b -> last (chain bc) = Some l ->
  let s' := snd (check_chain_validity (PBlock l :: rest) s) in
  (forall l2 proof,
     add_block l2 proof (mkWorld bc s') = (Raise AttributeError, mkWorld bc s'))
  /\ check_chain_validity (PBlock l :: rest) s' = (Raise AttributeError, s').
Proof.
  intros Hl Hlast s'. unfold s', check_chain_validity.
  rewrite (check_chain_loop_block s l b rest "0" Hl). simpl snd.
  split.
  - intros l2 proof.
    apply (add_block_no_hash l2 l proof (set_hash None b)); try assumption.
    + eapply lookup_written, Hl.
    + reflexivity.
  - rewrite (check_chain_loop_block _ l (set_hash None b) rest "0")
      by (eapply lookup_written, Hl).
    rewrite list_insert_insert_eq. reflexivity.
Qed.

Lemma check_then_add_block_witness :
  add_block 1%nat ex_solved_hash
    (mkWorld (mkBlockchain [0%nat] [] (Some ex_genesis_hash))
       (snd (check_chain_validity [PBlock 0]
               [ex_genesis; ex_solved (Some ex_solved_hash)])))
  = (Raise AttributeError,
     mkWorld (mkBlockchain [0%nat] [] (Some ex_genesis_hash))
       [set_hash None ex_genesis; ex_solved (Some ex_solved_hash)]).
Proof.
  apply (proj1 (check_then_add_block
                  [ex_genesis; ex_solved (Some ex_solved_hash)] 0%nat ex_genesis
                  [] (mkBlockchain [0%nat] [] (Some ex_genesis_hash))
                  eq_refl eq_refl)).
Defined.

(** ** new_transaction *)

Lemma dict_get_set {V : Type} (d : list (string * V)) (key : string) (v : V) :
  dict_get (dict_set d key v) key = Some v.
Proof.
  induction d as [|[k x] rest IH]; simpl.
  - rewrite String.eqb_refl. reflexivity.
  - destruct (String.eqb k key) eqn:E; simpl; rewrite E; [reflexivity | exact IH].
Qed.

Lemma dict_get_set_ne {V : Type} (d : list (string * V)) (key key' : string)
    (v : V) :
  key <> key' -> dict_get (dict_set d key v) key' = dict_get d key'.
Proof.
  intros Hne. induction d as [|[k x] rest IH]; simpl.
  - destruct (String.eqb_spec key key'); [congruence | reflexivity].
  - destruct (String.eqb_spec k key) as [->|Hk]; simpl.
    + destruct (String.eqb_spec key key'); [congruence | reflexivity].
    + destruct (String.eqb k key'); [reflexivity | exact IH].
Qed.

Lemma field_missing_iff {V : Type} (truthy : V -> bool)
    (tx_data : list (string * V)) (required_fields : list string) :
  field_missing truthy tx_data required_fields = true <->
  exists field,
    In field required_fields
    /\ (dict_get tx_data field = None
        \/ exists v, dict_get tx_data field = Some v /\ truthy v = false).
Proof.
  induction required_fields as [|f rest IH]; simpl.
  - split; [discriminate | intros (field & [] & _)].
  - destruct (dict_get tx_data f) as [v|] eqn:Hf.
    + destruct (truthy v) eqn:Hv.
      * rewrite IH. split.
        -- intros (field & Hin & H). exists field. split; [right; exact Hin | exact H].
        -- intros (field & [<- | Hin] & H).
           ++ destruct H as [H | (v' & H & Hv')]; congruence.
           ++ exists field. split; assumption.
      * split; [|reflexivity]. intros _. exists f.
        split; [left; reflexivity|]. right. exists v. split; assumption.
    + split; [|reflexivity]. intros _. exists f.
      split; [left; reflexivity | left; exact Hf].
Qed.

(** A submitted transaction is refused with 404, and nothing changes,
    exactly when [author] or [content] is absent from the body or has a
    falsy value. Otherwise the answer is 201 and the pool grows by that
    one transaction, placed last, whose [timestamp] is the server's clock
    reading, whatever the client sent under that key; its other fields,
    the chain, the participants and the blocks are as before. *)
Theorem new_transaction_validates {V : Type} (truthy : V -> bool)
    (of_datetime : datetime -> V) (repr : list (string * V) -> Transaction)
    (now : datetime) (tx_data : list (string * V)) (n : Node) :
  let stamped := dict_set tx_data "timestamp" (of_datetime now) in
  ((exists field,
      In field ["author"; "content"]
      /\ (dict_get tx_data field = None
          \/ exists v, dict_get tx_data field = Some v /\ truthy v = false)) ->
   new_transaction truthy of_datetime repr now tx_data n
   = (Return ("Invalid transaction data", 404), n))
  /\ (~ (exists field,
           In field ["author"; "content"]
           /\ (dict_get tx_data field = None
               \/ exists v, dict_get tx_data field = Some v /\ truthy v = false)) ->
      forall bc, blockchain n = GLedger bc ->
      new_transaction truthy of_datetime repr now tx_data n
      = (Return ("Success", 201),
         mkNode
           (GLedger (mkBlockchain (chain bc)
                       (unconfirmed_transactions bc ++ [repr stamped])
                       (previous_block bc)))
           (participants n) (node_blocks n)))
  /\ dict_get stamped "timestamp" = Some (of_datetime now)
  /\ (forall key, key <> "timestamp" -> dict_get stamped key = dict_get tx_data key).
Proof.
  intros stamped. split; [|split; [|split]].
  - intros H. apply (field_missing_iff truthy) in H.
    unfold new_transaction. rewrite H. reflexivity.
  - intros H bc Hg.
    destruct (field_missing truthy tx_data ["author"; "content"]) eqn:E.
    + exfalso. apply H. apply (field_missing_iff truthy). exact E.
    + unfold new_transaction. rewrite E.
      destruct n as [g ps s]. simpl in Hg. subst g. reflexivity.
  - apply dict_get_set.
  - intros key Hne. apply dict_get_set_ne. congruence.
Qed.

Lemma new_transaction_validates_witness :
  new_transaction (fun v : string => negb (String.eqb v EmptyString))
    (fun t => t) (String.concat ", " ∘ map snd) "2024-01-01 00:00:06"
    [("author", "a"); ("content", EmptyString)] ex_node
  = (Return ("Invalid transaction data", 404), ex_node)
  /\ fst (new_transaction (fun v : string => negb (String.eqb v EmptyString))
            (fun t => t) (String.concat ", " ∘ map snd) "2024-01-01 00:00:06"
            [("author", "a"); ("content", "hello"); ("timestamp", "1999")]
            ex_node)
     = Return ("Success", 201).
Proof.
  split.
  - apply (proj1 (new_transaction_validates
                    (fun v : string => negb (String.eqb v EmptyString))
                    (fun t => t) (String.concat ", " ∘ map snd)
                    "2024-01-01 00:00:06"
                    [("author", "a"); ("content", EmptyString)] ex_node)).
    exists "content". split; [right; left; reflexivity|].
    right. exists EmptyString. split; reflexivity.
  - rewrite (proj1 (proj2 (new_transaction_validates
                    (fun v : string => negb (String.eqb v EmptyString))
                    (fun t => t) (String.concat ", " ∘ map snd)
                    "2024-01-01 00:00:06"
                    [("author", "a"); ("content", "hello"); ("timestamp", "1999")]
                    ex_node)) ltac:(intros (f & [<-|[<-|[]]] & [H|(v & H & Hv)]);
                                      vm_compute in H; try discriminate;
                                      injection H as <-; discriminate)
               ex_ledger eq_refl).
    reflexivity.
Defined.

(** * The claims the code breaks *)

Example ex_mined_digests :
  compute_hash ex_mined_genesis = ex_mined_genesis_hash
  /\ compute_hash ex_mined_block = ex_mined_block_hash.
Proof. split; vm_compute; reflexivity. Qed.

(** C1 at its failing input: a chain of two blocks, each carrying its own
    digest with two leading zeros as stored hash, the first with previous
    hash ["0"], the second linked to the first. Every check the claim
    names passes, for the genesis block too, and the chain is valid; the
    walk nevertheless raises [AttributeError] at the first block, whose
    hash it has just deleted, and leaves that block without its hash. *)
Theorem check_chain_validity_valid_chain_raises :
  chain_passes [ex_mined_genesis; ex_mined_block] "0" [PBlock 0; PBlock 1]
  /\ hash ex_mined_genesis = Some (compute_hash ex_mined_genesis)
  /\ hash ex_mined_block = Some (compute_hash ex_mined_block)
  /\ check_chain_validity [PBlock 0; PBlock 1] [ex_mined_genesis; ex_mined_block]
     = (Raise AttributeError, [set_hash None ex_mined_genesis; ex_mined_block])
  /\ fst (check_chain_validity [PBlock 0; PBlock 1]
            [ex_mined_genesis; ex_mined_block]) <> Return true.
Proof.
  split.
  - exists 0%nat, ex_mined_genesis, ex_mined_genesis_hash.
    split; [reflexivity|]. split; [reflexivity|]. split; [reflexivity|].
    split; [vm_compute; reflexivity|]. split; [reflexivity|].
    exists 1%nat, ex_mined_block, ex_mined_block_hash.
    split; [reflexivity|]. split; [reflexivity|]. split; [reflexivity|].
    split; [vm_compute; reflexivity|]. split; [reflexivity | exact I].
  - split; [vm_compute; reflexivity|]. split; [vm_compute; reflexivity|].
    split; [vm_compute; reflexivity | vm_compute; discriminate].
Qed.

(** C2 at its failing input, a block whose first digest with two leading
    zeros is the one at nonce 2. With the module as written mining
    returns no digest: the loop test raises [NameError] and the block is
    as before. With [difficulty] bound the search returns the digest at
    nonce 2, but the block's nonce is back at 0, its recomputed digest is
    not the returned hash, and [add_block] refuses the mined block. *)
Theorem proof_of_work_fails :
  (forall fuel : nat,
     proof_of_work node_server_env fuel 1%nat [ex_genesis; ex_candidate]
     = (Raise NameError, [ex_genesis; ex_candidate]))
  /\ proof_of_work ex_env 5 1%nat [ex_genesis; ex_candidate]
     = (Return ex_candidate_hash2, [ex_genesis; ex_candidate])
  /\ compute_hash (set_nonce 2 ex_candidate) = ex_candidate_hash2
  /\ nonce ex_candidate = 0
  /\ compute_hash ex_candidate <> ex_candidate_hash2
  /\ add_block 1%nat ex_candidate_hash2
       (mkWorld ex_ledger [ex_genesis; ex_candidate])
     = (Return false, mkWorld ex_ledger [ex_genesis; ex_candidate]).
Proof.
  split; [|split; [|split; [|split; [|split]]]].
  - intros fuel. unfold proof_of_work. unfold bind at 1.
    rewrite (read_some _ 1%nat ex_candidate) by reflexivity.
    unfold bind at 1. rewrite pow_loop_unbound by reflexivity. reflexivity.
  - vm_compute. reflexivity.
  - vm_compute. reflexivity.
  - reflexivity.
  - vm_compute. discriminate.
  - vm_compute. reflexivity.
Qed.

(** C3 at its failing input, a ledger of one block with one pending
    transaction. Whatever names are bound and whatever the clock reads,
    [interface] raises [TypeError] when it builds the candidate (keyword
    [timestamp], parameter [time_stamp]): nothing is mined, no index is
    returned, and the pool keeps its transaction. *)
Theorem interface_raises_type_error (env : Env) (fuel : nat)
    (now_arg now : datetime) :
  unconfirmed_transactions ex_ledger = [ex_tx]
  /\ interface env fuel now_arg now (mkWorld ex_ledger [ex_genesis])
     = (Raise TypeError, mkWorld ex_ledger [ex_genesis])
  /\ forall i, fst (interface env fuel now_arg now (mkWorld ex_ledger [ex_genesis]))
               <> Return (PyInt i).
Proof.
  assert (H : interface env fuel now_arg now (mkWorld ex_ledger [ex_genesis])
              = (Raise TypeError, mkWorld ex_ledger [ex_genesis])).
  { apply (interface_type_error env fuel now_arg now ex_ledger [ex_genesis]
             0%nat ex_genesis ex_genesis_hash);
      [discriminate | reflexivity | reflexivity | reflexivity]. }
  split; [reflexivity|]. split; [exact H|].
  intros i. rewrite H. discriminate.
Qed.

(** C8 at its failing input, any call [Block(index, transactions,
    time_stamp, previous_hash)]. Lines 21-25 store the clock reading as
    timestamp and nonce 0 and leave [hash] unset, as the claim says; line
    26 then calls [self.generate_hash()], which the class does not define,
    and the constructor raises [AttributeError]: no block is built. *)
Theorem Block_new_raises (now : datetime) (i : Z) (txs : list Transaction)
    (ts : datetime) (ph : string) (s : store) :
  (time_stamp (Block_fields now i txs ts ph) = now
   /\ nonce (Block_fields now i txs ts ph) = 0
   /\ hash (Block_fields now i txs ts ph) = None)
  /\ Block_new node_server_env now i txs ts ph s = (Raise AttributeError, s)
  /\ forall l s', Block_new node_server_env now i txs ts ph s <> (Return l, s').
Proof.
  assert (H : Block_new node_server_env now i txs ts ph s
              = (Raise AttributeError, s))
    by (apply Block_new_unbound; reflexivity).
  split; [repeat split|]. split; [exact H|].
  intros l s'. rewrite H. discriminate.
Qed.




(** ** A tampered dump *)







(** ** verify_and_add_block, key by key *)



(** With the class as written [verify_and_add_block] never answers: it
    raises [KeyError] when the body lacks [index], [transactions],
    [timestamp] or [previous_hash], and [AttributeError] from
    [Block.__init__] otherwise; and [create_chain_from_dump] raises
    [AttributeError] from [Blockchain()] for every dump, before it reads
    any entry. The node is left as it was in each case. *)
Theorem block_builders_raise (now_arg now : datetime) (clock : nat -> datetime)
    (body : BlockBody) (chain_dump : list BlockData) (n : Node) :
  verify_and_add_block node_server_env now body n
  = (Raise (match body_index body, body_transactions body,
                  body_timestamp body, body_previous_hash body with
            | Some _, Some _, Some _, Some _ => AttributeError
            | _, _, _, _ => KeyError
            end), n)
  /\ create_chain_from_dump node_server_env now_arg now clock chain_dump
       (node_blocks n)
     = (Raise AttributeError, node_blocks n).
Proof.
  split.
  - destruct n as [g ps s]. destruct body as [[i|] [t|] [ts|] [ph|] hsh];
      reflexivity.
  - unfold create_chain_from_dump. unfold bind at 1.
    rewrite Blockchain_init_unbound by reflexivity. reflexivity.
Qed.
